(** * SunoApi: session handshake, token renewal, song submission and polling

    A shallow embedding of [src/lib/SunoApi.ts].  The class talks to two
    web services through one axios instance; here the services are an
    oracle carried by the state, the wall clock is a counter of
    milliseconds, and every method is a function in a state-and-exception
    monad over that state.  Response bodies are untyped in the source
    ([any]), so they are JavaScript values and every property read can
    throw the way it does in JavaScript. *)

From stdpp Require Import gmap strings list fin_maps pretty.
From Stdlib Require Import ZArith Lia Ascii.

Set Warnings "-register-all".
#[local] Open Scope string_scope.
#[local] Open Scope list_scope.
#[local] Open Scope Z_scope.

(** ** JavaScript values *)

(** The values a parsed JSON body or a payload field can hold.  Numbers
    are kept to the integers: nothing here reads a fractional number.  An
    object is a finite map from property names to values. *)
Inductive JsVal : Type :=
  | JUndefined
  | JNull
  | JBool (b : bool)
  | JNum (n : Z)
  | JStr (s : string)
  | JArr (l : list JsVal)
  | JObj (m : gmap string JsVal).

(** Exceptions the methods can raise: [new Error(msg)], the [TypeError]
    of a bad property read or call, and the rejections of axios. *)
Inductive AxiosFailure : Type :=
  | ETimedOut            (* the per-call timeout elapsed *)
  | EBadStatus (status : Z)   (* status outside 200..299 *)
  | ENetwork.            (* no response at all *)

Inductive Exn : Type :=
  | Error (msg : string)
  | TypeError
  | AxiosError (why : AxiosFailure).

(** Outcome of running a method: a value, an exception, or the step
    budget of the polling loop used up. *)
Inductive Res (A : Type) : Type :=
  | Ok (a : A)
  | Throw (e : Exn)
  | OutOfFuel.
Arguments Ok {A} a.
Arguments Throw {A} e.
Arguments OutOfFuel {A}.

Module Js.

(** [ToBoolean]: what [!x] and [x ? a : b] test. *)
Definition truthy (v : JsVal) : bool :=
  match v with
  | JUndefined | JNull => false
  | JBool b => b
  | JNum n => negb (n =? 0)
  | JStr s => negb (String.eqb s "")
  | JArr _ | JObj _ => true
  end.

Definition nullish (v : JsVal) : bool :=
  match v with
  | JUndefined | JNull => true
  | _ => false
  end.

(** The value of [v[k]] where the read does not throw, for a property
    name [k] that no prototype defines (all the names read in this
    file are such): the own property of an object, [undefined] on
    anything else. *)
Definition peek (k : string) (v : JsVal) : JsVal :=
  match v with
  | JObj m => default JUndefined (m !! k)
  | _ => JUndefined
  end.

(** [v[k]]: a [TypeError] on [undefined] and [null]. *)
Definition prop (k : string) (v : JsVal) : Res JsVal :=
  if nullish v then Throw TypeError else Ok (peek k v).

(** [String(v)], as a template literal and [Array.prototype.join]
    apply it; inside [join] a [null] or [undefined] element prints as
    the empty string. *)
Fixpoint to_string (v : JsVal) : string :=
  match v with
  | JUndefined => "undefined"
  | JNull => "null"
  | JBool true => "true"
  | JBool false => "false"
  | JNum n => pretty n
  | JStr s => s
  | JArr l =>
      String.concat ","
        (map (fun x => match x with
                       | JUndefined | JNull => ""
                       | _ => to_string x
                       end) l)
  | JObj _ => "[object Object]"
  end.

Definition join (sep : string) (l : list JsVal) : string :=
  String.concat sep
    (map (fun x => match x with
                   | JUndefined | JNull => ""
                   | _ => to_string x
                   end) l).

(** [v === 'lit'] *)
Definition strict_eq_str (v : JsVal) (lit : string) : bool :=
  match v with
  | JStr s => String.eqb s lit
  | _ => false
  end.

End Js.

(** ** Strings: [split], [trim], [join]

    A string is a sequence of code units; the model carries the code
    units below 256.  Among them the white space and line terminators
    that [String.prototype.trim] strips are 9 to 13, 32 and 160. *)

Definition LF : ascii := ascii_of_nat 10.
Definition newline : string := String LF "".

Definition is_white_space (c : ascii) : bool :=
  let n := nat_of_ascii c in
  ((9 <=? n)%nat && (n <=? 13)%nat) || (n =? 32)%nat || (n =? 160)%nat.

Fixpoint trimStart (s : string) : string :=
  match s with
  | "" => ""
  | String c r => if is_white_space c then trimStart r else s
  end.

Definition trimEnd (s : string) : string :=
  String.rev (trimStart (String.rev s)).

Definition trim (s : string) : string := trimEnd (trimStart s).

(** [s.split(sep)] for a separator of one character: the pieces between
    the separators, [[""]] for the empty string. *)
Fixpoint split (sep : ascii) (s : string) : list string :=
  match s with
  | "" => [""]
  | String c r =>
      if Ascii.eqb c sep then "" :: split sep r
      else match split sep r with
           | h :: t => String c h :: t
           | [] => [String c ""]
           end
  end.

Fixpoint contains (sep : ascii) (s : string) : bool :=
  match s with
  | "" => false
  | String c r => Ascii.eqb c sep || contains sep r
  end.

(** ** [parseLyrics] *)

Definition not_blank (line : string) : Prop := trim line ≠ "".

#[global] Instance not_blank_dec line : Decision (not_blank line).
Proof. unfold not_blank. apply _. Defined.

Definition parseLyrics (prompt : string) : string :=
  let lines := filter not_blank (split LF prompt) in
  String.concat newline lines.


(** ** HTTP traffic, time and the service oracle *)

Inductive Method : Type := GET | POST.

Record Request : Type := mkRequest {
  req_method : Method;
  req_url : string;
  req_body : option (gmap string JsVal);
  req_headers : gmap string string;
  req_timeout : option Z             (* milliseconds *)
}.

(** What a service does with a request: answers after [latency]
    milliseconds, or never answers and the connection fails. *)
Inductive Reply : Type :=
  | HttpReply (latency : N) (status : Z) (statusText : string) (data : JsVal)
  | NoReply (latency : N).

(** The [response] object axios resolves with. *)
Record Response : Type := mkResponse {
  status : Z;
  statusText : string;
  data : JsVal
}.

Inductive Event : Type :=
  | Exchange (req : Request) (rep : Reply)
  | Slept (ms : Z).

(** A request interceptor registered on [this.client].  The class
    registers only closures of the shape
    [function (config) { config.headers['Authorization'] = `Bearer ${newToken}`; return config }],
    one per captured [newToken]. *)
Inductive Interceptor : Type :=
  | SetBearer (newToken : JsVal).

Definition run_interceptor (i : Interceptor) (headers : gmap string string)
  : gmap string string :=
  match i with
  | SetBearer newToken =>
      <["Authorization" := "Bearer " +:+ Js.to_string newToken]> headers
  end.

(** The object and the world it runs in.  [server] and [random] are the
    environment: the reply to a request and the draw of the next pause,
    each given everything that has happened so far. *)
Record State : Type := mkState {
  sid : JsVal;                          (* this.sid *)
  defaults : gmap string string;        (* default headers of this.client *)
  interceptors : list Interceptor;      (* in the order they were registered *)
  now : Z;                              (* Date.now() *)
  trace : list Event;                   (* oldest first *)
  server : list Event -> Request -> Reply;
  random : list Event -> Z
}.

Definition M (A : Type) : Type := State -> Res A * State.

#[global] Instance Res_ret : MRet Res := fun _ a => Ok a.
#[global] Instance Res_bind : MBind Res := fun _ _ f m =>
  match m with
  | Ok a => f a
  | Throw e => Throw e
  | OutOfFuel => OutOfFuel
  end.

#[global] Instance M_ret : MRet M := fun _ a s => (Ok a, s).
#[global] Instance M_bind : MBind M := fun _ _ f m s =>
  match m s with
  | (Ok a, s') => f a s'
  | (Throw e, s') => (Throw e, s')
  | (OutOfFuel, s') => (OutOfFuel, s')
  end.

Definition throw {A} (e : Exn) : M A := fun s => (Throw e, s).
Definition lift {A} (r : Res A) : M A := fun s => (r, s).
Definition gets {A} (f : State -> A) : M A := fun s => (Ok (f s), s).

Definition advance (ms : Z) (e : Event) (s : State) : State :=
  mkState (sid s) (defaults s) (interceptors s) (now s + ms) (trace s ++ [e])
          (server s) (random s).

Definition set_sid (v : JsVal) : M unit := fun s =>
  (Ok tt, mkState v (defaults s) (interceptors s) (now s) (trace s)
                  (server s) (random s)).

(** [this.client.interceptors.request.use(f)]: the handler joins the end
    of the list of registered handlers; none is ever ejected. *)
Definition use_interceptor (i : Interceptor) : M unit := fun s =>
  (Ok tt, mkState (sid s) (defaults s) (interceptors s ++ [i]) (now s)
                  (trace s) (server s) (random s)).

(** [Array.prototype.map] over a value that should be an array; the
    callback can throw. *)
Definition js_map {A} (f : JsVal -> Res A) (v : JsVal) : Res (list A) :=
  match v with
  | JArr l => mapM f l
  | _ => Throw TypeError
  end.

(** Modelled from the spec: [sleep] of [@/lib/utils], which the class
    imports.  [sleep(x, y)] pauses for an interval between [x] and [y]
    seconds; the draw of the environment is clamped into that range. *)
Definition sleep (x y : Z) : M unit := fun s =>
  let d := Z.max (1000 * x) (Z.min (1000 * y) (random s (trace s))) in
  (Ok tt, advance d (Slept d) s).

(** ** The axios instance *)

(** The chain a request runs through.  The class only registers
    interceptors; the order in which they run is that of axios
    ([lib/core/Axios.js], [request]): the registered handlers are
    visited in the order of registration and each one is put at the
    front of the chain ([requestInterceptorChain.unshift]), so the
    handler registered last runs first and the one registered first
    runs last, just before the request is dispatched. *)
Definition request_chain (hs : list Interceptor) : list Interceptor := rev hs.

Definition outgoing_headers (s : State) : gmap string string :=
  fold_left (fun h i => run_interceptor i h) (request_chain (interceptors s))
            (defaults s).

Definition ok_status (st : Z) : bool := (200 <=? st) && (st <? 300).

Definition timed_out (timeout : option Z) (latency : N) : bool :=
  match timeout with
  | Some t => (0 <? t) && (t <=? Z.of_N latency)
  | None => false
  end.

(** One request through [this.client]: the promise resolves with the
    response when the status is 2xx and rejects otherwise, or when the
    timeout elapses first, or when the connection fails. *)
Definition client_request (m : Method) (url : string)
    (body : option (gmap string JsVal)) (timeout : option Z) : M Response :=
  fun s =>
    let req := mkRequest m url body (outgoing_headers s) timeout in
    let rep := server s (trace s) req in
    let latency := match rep with HttpReply l _ _ _ | NoReply l => l end in
    if timed_out timeout latency then
      (Throw (AxiosError ETimedOut),
       advance (default 0 timeout) (Exchange req rep) s)
    else
      let s' := advance (Z.of_N latency) (Exchange req rep) s in
      match rep with
      | HttpReply _ st txt d =>
          if ok_status st then (Ok (mkResponse st txt d), s')
          else (Throw (AxiosError (EBadStatus st)), s')
      | NoReply _ => (Throw (AxiosError ENetwork), s')
      end.

Definition client_get (url : string) (timeout : option Z) : M Response :=
  client_request GET url None timeout.

Definition client_post (url : string) (body : option (gmap string JsVal))
    (timeout : option Z) : M Response :=
  client_request POST url body timeout.

(** ** The class [SunoApi] *)

Module AudioInfo.
(** [interface AudioInfo]; the fields are copied from untyped response
    data, so each holds whatever value the service sent. *)
Record t : Type := mk {
  id : JsVal;
  title : JsVal;
  image_url : JsVal;
  lyric : JsVal;
  audio_url : JsVal;
  video_url : JsVal;
  created_at : JsVal;
  model_name : JsVal;
  status : JsVal;
  gpt_description_prompt : JsVal;
  prompt : JsVal;
  type : JsVal;
  tags : JsVal;
  duration : JsVal
}.
End AudioInfo.

Definition BASE_URL : string := "https://studio-api.suno.ai".
Definition CLERK_BASE_URL : string := "https://clerk.suno.ai".

(** [new SunoApi(cookie)]: no session id yet, no interceptor yet, and
    the two default headers the constructor sets.  [randomUserAgent] is
    the string [new UserAgent(/Chrome/).random().toString()] produced. *)
Definition new_SunoApi (cookie randomUserAgent : string) (clock : Z)
    (srv : list Event -> Request -> Reply) (rnd : list Event -> Z) : State :=
  mkState JUndefined
          (<["Cookie" := cookie]> (<["User-Agent" := randomUserAgent]> ∅))
          [] clock [] srv rnd.

Definition getAuthToken : M unit :=
  let getSessionUrl := CLERK_BASE_URL +:+ "/v1/client?_clerk_js_version=4.70.5" in
  sessionResponse ← client_get getSessionUrl None;
  r ← lift (Js.prop "response" (data sessionResponse));
  sid ← lift (Js.prop "last_active_session_id" r);
  if negb (Js.truthy sid) then throw (Error "Failed to get session id")
  else set_sid sid.

Definition keepAlive (isWait : option bool) : M unit :=
  this_sid ← gets sid;
  if negb (Js.truthy this_sid)
  then throw (Error "Session ID is not set. Cannot renew token.")
  else
    let renewUrl := CLERK_BASE_URL +:+ "/v1/client/sessions/"
                    +:+ Js.to_string this_sid
                    +:+ "/tokens/api?_clerk_js_version=4.70.0" in
    renewResponse ← client_post renewUrl None None;
    (if default false isWait then sleep 1 2 else mret tt);;
    newToken ← lift (Js.prop "jwt" (data renewResponse));
    use_interceptor (SetBearer newToken).

Definition init : M unit :=
  getAuthToken;; keepAlive None.

(** The object literal both [map] callbacks build, given how [lyric] is
    computed from [audio.metadata.prompt]. *)
Definition audio_info (lyric_of : JsVal -> Res JsVal) (audio : JsVal)
  : Res AudioInfo.t :=
  id ← Js.prop "id" audio;
  title ← Js.prop "title" audio;
  image_url ← Js.prop "image_url" audio;
  metadata ← Js.prop "metadata" audio;
  raw ← Js.prop "prompt" metadata;
  lyric ← lyric_of raw;
  audio_url ← Js.prop "audio_url" audio;
  video_url ← Js.prop "video_url" audio;
  created_at ← Js.prop "created_at" audio;
  model_name ← Js.prop "model_name" audio;
  status ← Js.prop "status" audio;
  gpt_description_prompt ← Js.prop "gpt_description_prompt" metadata;
  prompt ← Js.prop "prompt" metadata;
  type ← Js.prop "type" metadata;
  tags ← Js.prop "tags" metadata;
  duration ← Js.prop "duration_formatted" metadata;
  mret (AudioInfo.mk id title image_url lyric audio_url video_url created_at
                     model_name status gpt_description_prompt prompt type
                     tags duration).

(** [audio.metadata.prompt ? this.parseLyrics(audio.metadata.prompt) : ""];
    a truthy value that is not a string has no [split] to call. *)
Definition feed_lyric (raw : JsVal) : Res JsVal :=
  if Js.truthy raw then
    match raw with
    | JStr s => Ok (JStr (parseLyrics s))
    | _ => Throw TypeError
    end
  else Ok (JStr "").

(** The address [get] requests. *)
Definition feed_url (songIds : option (list JsVal)) : string :=
  let url := BASE_URL +:+ "/api/feed/" in
  match songIds with
  | Some ids => url +:+ "?ids=" +:+ Js.join "," ids
  | None => url
  end.

Definition get (songIds : option (list JsVal)) : M (list AudioInfo.t) :=
  let url := feed_url songIds in
  response ← client_get url (Some 3000);
  let audios := data response in
  lift (js_map (audio_info feed_lyric) audios).

Definition from_optional (o : option string) : JsVal :=
  match o with
  | Some s => JStr s
  | None => JUndefined
  end.

(** The payload [generateSongs] builds before it posts it. *)
Definition generateSongs_payload (prompt : string) (isCustom : bool)
    (tags title : option string) (make_instrumental : option bool)
  : gmap string JsVal :=
  let payload : gmap string JsVal :=
    <["prompt" := JStr ""]>
      (<["mv" := JStr "chirp-v3-0"]>
         (<["make_instrumental" := JBool (default false make_instrumental)]> ∅)) in
  if isCustom then
    <["prompt" := JStr prompt]>
      (<["title" := from_optional title]>
         (<["tags" := from_optional tags]> payload))
  else
    <["gpt_description_prompt" := JStr prompt]> payload.

Definition allCompleted (response : list AudioInfo.t) : bool :=
  forallb (fun audio =>
             Js.strict_eq_str (AudioInfo.status audio) "streaming"
             || Js.strict_eq_str (AudioInfo.status audio) "complete")
          response.

(** The [while] loop of [generateSongs]; [fuel] bounds how many times its
    condition is evaluated. *)
Fixpoint poll (fuel : nat) (songIds : list JsVal) (startTime : Z)
    (lastResponse : list AudioInfo.t) : M (list AudioInfo.t) :=
  match fuel with
  | O => fun s => (OutOfFuel, s)
  | S fuel' =>
      t ← gets now;
      if t - startTime <? 100000 then
        response ← get (Some songIds);
        if allCompleted response then mret response
        else
          sleep 3 6;;
          keepAlive (Some true);;
          poll fuel' songIds startTime response
      else mret lastResponse
  end.

Definition generateSongs (fuel : nat) (prompt : string) (isCustom : bool)
    (tags title : option string) (make_instrumental : option bool)
    (wait_audio : bool) : M (list AudioInfo.t) :=
  let payload := generateSongs_payload prompt isCustom tags title
                                       make_instrumental in
  response ← client_post (BASE_URL +:+ "/api/generate/v2/") (Some payload)
                         (Some 10000);
  if negb (status response =? 200)
  then throw (Error ("Error response:" +:+ statusText response))
  else
    clips ← lift (Js.prop "clips" (data response));
    songIds ← lift (js_map (Js.prop "id") clips);
    if wait_audio then
      startTime ← gets now;
      sleep 5 5;;
      poll fuel songIds startTime []
    else
      keepAlive (Some true);;
      clips ← lift (Js.prop "clips" (data response));
      lift (js_map (audio_info Ok) clips).

(** [generate(prompt, make_instrumental = false, wait_audio = false)] *)
Definition generate (fuel : nat) (prompt : string)
    (make_instrumental wait_audio : option bool) : M (list AudioInfo.t) :=
  generateSongs fuel prompt false None None
                (Some (default false make_instrumental))
                (default false wait_audio).

(** [custom_generate(prompt, tags, title, make_instrumental = false, wait_audio = false)] *)
Definition custom_generate (fuel : nat) (prompt tags title : string)
    (make_instrumental wait_audio : option bool) : M (list AudioInfo.t) :=
  generateSongs fuel prompt true (Some tags) (Some title)
                (Some (default false make_instrumental))
                (default false wait_audio).

(** ** Reading the trace *)

Fixpoint starts_with (p s : string) : bool :=
  match p, s with
  | "", _ => true
  | String a p', String b s' => Ascii.eqb a b && starts_with p' s'
  | String _ _, "" => false
  end.

Definition is_submit (r : Request) : bool :=
  match req_method r with
  | POST => String.eqb (req_url r) (BASE_URL +:+ "/api/generate/v2/")
  | GET => false
  end.

Definition is_renew (r : Request) : bool :=
  match req_method r with
  | POST => starts_with (CLERK_BASE_URL +:+ "/v1/client/sessions/") (req_url r)
  | GET => false
  end.

Definition is_fetch (r : Request) : bool :=
  match req_method r with
  | GET => starts_with (BASE_URL +:+ "/api/feed/") (req_url r)
  | POST => false
  end.

(** The list [get] returns when the feed endpoint answers [rep], if it
    returns one. *)
Definition fetched (rep : Reply) : option (list AudioInfo.t) :=
  match rep with
  | HttpReply latency st _ d =>
      if negb (timed_out (Some 3000) latency) && ok_status st then
        match js_map (audio_info feed_lyric) d with
        | Ok l => Some l
        | _ => None
        end
      else None
  | NoReply _ => None
  end.

(** The lists fetched from the feed in a stretch of the trace, oldest
    first. *)
Definition fetches (evs : list Event) : list (list AudioInfo.t) :=
  omap (fun e => match e with
                 | Exchange req rep => if is_fetch req then fetched rep else None
                 | Slept _ => None
                 end) evs.

(** ** Assumptions on the services *)

(** The submission endpoint accepts every submission in time and lists
    the clips it created. *)
Definition accepts_submissions (srv : list Event -> Request -> Reply) : Prop :=
  forall tr req, is_submit req = true ->
    exists latency txt d clips (ids : list JsVal),
      srv tr req = HttpReply latency 200 txt d
      /\ timed_out (Some 10000) latency = false
      /\ Js.prop "clips" d = Ok clips
      /\ js_map (Js.prop "id") clips = Ok ids.

(** The identity service renews the token whenever asked (the renewal
    is sent without a timeout, so any latency will do). *)
Definition renews_tokens (srv : list Event -> Request -> Reply) : Prop :=
  forall tr req, is_renew req = true ->
    exists latency st txt d jwt,
      srv tr req = HttpReply latency st txt d
      /\ ok_status st = true
      /\ Js.prop "jwt" d = Ok jwt.

(** Every fetch succeeds and shows a job that is neither streaming nor
    complete. *)
Definition never_completes (srv : list Event -> Request -> Reply) : Prop :=
  forall tr req, is_fetch req = true ->
    exists l, fetched (srv tr req) = Some l /\ allCompleted l = false.

(** [s'] is [s] after some requests and pauses: the same object talking
    to the same services, with at most more interceptors, a later clock
    and a longer trace. *)
Record later (s s' : State) (evs : list Event) : Prop := mkLater {
  later_sid : sid s' = sid s;
  later_defaults : defaults s' = defaults s;
  later_server : server s' = server s;
  later_random : random s' = random s;
  later_now : now s <= now s';
  later_trace : trace s' = trace s ++ evs
}.

(** ** The records the mappings should build *)

(** For comparison with the two [map] callbacks: the record with every
    field copied from the entry and its [metadata], and [lyric] computed
    from the raw prompt by [lyric_of]. *)
Definition record_of (lyric_of : JsVal -> JsVal) (a : JsVal) : AudioInfo.t :=
  let md := Js.peek "metadata" a in
  AudioInfo.mk (Js.peek "id" a) (Js.peek "title" a) (Js.peek "image_url" a)
    (lyric_of (Js.peek "prompt" md))
    (Js.peek "audio_url" a) (Js.peek "video_url" a) (Js.peek "created_at" a)
    (Js.peek "model_name" a) (Js.peek "status" a)
    (Js.peek "gpt_description_prompt" md) (Js.peek "prompt" md)
    (Js.peek "type" md) (Js.peek "tags" md) (Js.peek "duration_formatted" md).

(** The lyric the spec describes for a feed entry: the normalised raw
    prompt when there is one, the empty string otherwise. *)
Definition normalized_lyric (raw : JsVal) : JsVal :=
  match raw with
  | JStr p => JStr (parseLyrics p)
  | _ => JStr ""
  end.

(** An entry the service documents: a value with a [metadata] value in
    it (neither [null] nor [undefined]). *)
Definition has_metadata (a : JsVal) : Prop :=
  Js.nullish a = false /\ Js.nullish (Js.peek "metadata" a) = false.

(** Its raw prompt is a string, or is missing or otherwise falsy. *)
Definition prompt_is_text (a : JsVal) : Prop :=
  match Js.peek "prompt" (Js.peek "metadata" a) with
  | JStr _ => True
  | raw => Js.truthy raw = false
  end.

(** [m] leaves the session id, the default headers and the services as
    they are, whatever it requests. *)
Definition steady {A} (m : M A) : Prop :=
  forall s, exists evs, later s (snd (m s)) evs.

(** [m] always ends within its step budget: with a value or an
    exception. *)
Definition ends {A} (m : M A) : Prop :=
  forall s, fst (m s) <> OutOfFuel.

(** ** Scripted services, for the examples *)

Module Demo.

Definition obj (fields : list (string * JsVal)) : JsVal :=
  JObj (list_to_map fields).

Definition clip (id st : string) (raw : JsVal) : JsVal :=
  obj [("id", JStr id); ("status", JStr st);
       ("metadata", obj [("prompt", raw)])].

Definition lyrics : string :=
  "la la" +:+ newline +:+ newline +:+ "  " +:+ newline +:+ "di dum".

(** The identity service knows one session and signs a new token at
    every renewal; a submission creates two clips; the feed shows
    them, in the order it likes, with the status [feed_status]. *)
Definition services (feed_status : string) (tr : list Event) (r : Request)
  : Reply :=
  if is_submit r then
    HttpReply 100 200 "OK"
      (obj [("clips", JArr [clip "a1" "submitted" JUndefined;
                            clip "a2" "queued" JUndefined])])
  else if is_renew r then
    HttpReply 20 200 "OK" (obj [("jwt", JStr ("token" +:+ pretty (length tr)))])
  else if is_fetch r then
    HttpReply 30 200 "OK"
      (JArr [clip "a2" feed_status JNull; clip "a1" feed_status (JStr lyrics)])
  else
    HttpReply 10 200 "OK"
      (obj [("response", obj [("last_active_session_id", JStr "sess_1")])]).

(** The identity service as it answers a client it does not know: no
    client object at all. *)
Definition signed_out (tr : list Event) (r : Request) : Reply :=
  HttpReply 10 200 "OK" (obj [("response", JNull); ("client", JNull)]).

(** It feeds an empty array. *)
Definition empty_feed (tr : list Event) (r : Request) : Reply :=
  if is_fetch r then HttpReply 30 200 "OK" (JArr [])
  else services "queued" tr r.

Definition fresh (srv : list Event -> Request -> Reply) : State :=
  new_SunoApi "__client=abc" "Mozilla/5.0 Chrome" 0 srv (fun _ => 0).

(** The client after [init]. *)
Definition ready (srv : list Event -> Request -> Reply) : State :=
  snd (init (fresh srv)).

End Demo.

(** ** The rest of the class *)

(** [get_credits]: the billing record, its four fields renamed. *)
Definition get_credits : M (gmap string JsVal) :=
  response ← client_get (BASE_URL +:+ "/api/billing/info/") None;
  credits_left ← lift (Js.prop "total_credits_left" (data response));
  period ← lift (Js.prop "period" (data response));
  monthly_limit ← lift (Js.prop "monthly_limit" (data response));
  monthly_usage ← lift (Js.prop "monthly_usage" (data response));
  mret (<["monthly_usage" := monthly_usage]>
          (<["monthly_limit" := monthly_limit]>
             (<["period" := period]>
                (<["credits_left" := credits_left]> ∅)))).


(** ** More ways to read the trace *)

(** The requests sent in a stretch of the trace, oldest first. *)
Definition requests (evs : list Event) : list Request :=
  omap (fun e => match e with
                 | Exchange req _ => Some req
                 | Slept _ => None
                 end) evs.

#[global] Instance Method_eq_dec : EqDecision Method.
Proof. solve_decision. Defined.

(** Those among them that went out with [GET]. *)
Definition gets_sent (evs : list Event) : list Request :=
  filter (fun req => req_method req = GET) (requests evs).

(** [m] only adds to the trace. *)
Definition extends {A} (m : M A) : Prop :=
  forall s, exists evs, trace (snd (m s)) = trace s ++ evs.




(** What a stretch of the polling loop for [songIds], started at clock
    reading [t] with fetches timed from [startTime], may leave in the
    trace: feed requests only for these ids, with the three-second
    timeout, and not more of them than the time to the deadline allows
    at three seconds a pass. *)
Definition polls_for (songIds : list JsVal) (startTime t : Z)
    (evs : list Event) : Prop :=
  Forall (fun req => req_url req = feed_url (Some songIds)
                     /\ req_timeout req = Some 3000) (gets_sent evs)
  /\ (gets_sent evs = []
      \/ 3000 * (Z.of_nat (length (gets_sent evs)) - 1)
         < 100000 - (t - startTime)).

(** ** More scripted services *)

Module Script.

(** A feed with an entry that has lost its metadata. *)
Definition broken_feed (tr : list Event) (r : Request) : Reply :=
  if is_fetch r then
    HttpReply 30 200 "OK"
      (JArr [Demo.clip "a1" "complete" (JStr "la");
             Demo.obj [("id", JStr "a2"); ("status", JStr "complete")]])
  else Demo.services "queued" tr r.

(** A submission endpoint that answers 202 Accepted. *)
Definition accepted_202 (tr : list Event) (r : Request) : Reply :=
  if is_submit r then HttpReply 100 202 "Accepted" (Demo.obj [("clips", JArr [])])
  else Demo.services "queued" tr r.

(** An identity service whose client object names no session. *)
Definition no_session (tr : list Event) (r : Request) : Reply :=
  HttpReply 10 200 "OK"
    (Demo.obj [("response", Demo.obj [("last_active_session_id", JNull)])]).

(** An identity service that renews the token once and is unavailable
    afterwards. *)
Definition renews_once (tr : list Event) (r : Request) : Reply :=
  if is_renew r && (2 <=? length tr)%nat
  then HttpReply 20 503 "Service Unavailable" JNull
  else Demo.services "queued" tr r.

(** A billing endpoint that leaves the period out. *)
Definition billing (tr : list Event) (r : Request) : Reply :=
  match req_method r with
  | GET =>
      if starts_with (BASE_URL +:+ "/api/billing/") (req_url r) then
        HttpReply 15 200 "OK"
          (Demo.obj [("total_credits_left", JNum 40);
                     ("monthly_limit", JNum 50);
                     ("monthly_usage", JNum 10)])
      else Demo.services "queued" tr r
  | POST => Demo.services "queued" tr r
  end.

End Script.

(** * Properties *)

(** ** Lyrics normalisation *)

Section SplitJoin.
Variable sep : ascii.

Lemma split_not_nil s : split sep s ≠ [].
Proof.
  destruct s as [|c r]; simpl; [done|].
  destruct (Ascii.eqb c sep); [done|]. by destruct (split sep r).
Qed.

(** No piece of a split holds the separator. *)
Lemma split_pieces_clean s :
  Forall (fun piece => contains sep piece = false) (split sep s).
Proof.
  induction s as [|c r IH]; simpl.
  - by repeat constructor.
  - destruct (Ascii.eqb c sep) eqn:E.
    + by constructor.
    + destruct (split sep r) as [|h t]; inversion IH; subst;
        constructor; simpl; rewrite ?E; auto.
Qed.

Lemma split_clean s : contains sep s = false → split sep s = [s].
Proof.
  induction s as [|c r IH]; simpl; [done|].
  intros [Hc Hr]%orb_false_iff. rewrite Hc, (IH Hr). done.
Qed.

Lemma split_app_sep s r :
  contains sep s = false →
  split sep (s +:+ String sep r) = s :: split sep r.
Proof.
  induction s as [|c s IH]; simpl.
  - intros _. by rewrite Ascii.eqb_refl.
  - intros [Hc Hs]%orb_false_iff. by rewrite Hc, (IH Hs).
Qed.

(** Splitting what [join] glued gives the pieces back. *)
Lemma split_concat (pieces : list string) :
  pieces ≠ [] →
  Forall (fun piece => contains sep piece = false) pieces →
  split sep (String.concat (String sep "") pieces) = pieces.
Proof.
  induction pieces as [|p [|q rest] IH]; intros Hne Hall; [done|..].
  - simpl. apply split_clean. by inversion Hall.
  - inversion Hall as [|? ? Hp Hrest]; subst.
    change (String.concat (String sep "") (p :: q :: rest))
      with (p +:+ String sep (String.concat (String sep "") (q :: rest))).
    rewrite split_app_sep by done. f_equal. by apply IH.
Qed.
End SplitJoin.

Lemma filter_keeps_all {A} (P : A → Prop) `{!∀ x, Decision (P x)} (l : list A) :
  Forall P l → filter P l = l.
Proof.
  induction 1 as [|x l Hx _ IH]; [done|].
  rewrite filter_cons. destruct (decide (P x)); [by rewrite IH | done].
Qed.

Lemma Forall_filter_sub {A} (P Q : A → Prop) `{!∀ x, Decision (P x)} (l : list A) :
  Forall Q l → Forall Q (filter P l).
Proof.
  induction 1 as [|x l Hx _ IH]; [constructor|].
  rewrite filter_cons. destruct (decide (P x)); [by constructor | done].
Qed.

Lemma Forall_filter_holds {A} (P : A → Prop) `{!∀ x, Decision (P x)} (l : list A) :
  Forall P (filter P l).
Proof.
  induction l as [|x l IH]; [constructor|].
  rewrite filter_cons. destruct (decide (P x)); [by constructor | done].
Qed.

(** C9: [parseLyrics] is idempotent: splitting an input on line breaks,
    dropping the lines that are blank after trimming and joining the rest
    with single line breaks gives a text that the same steps leave as it
    is. *)
Theorem parseLyrics_idempotent (x : string) :
  parseLyrics (parseLyrics x) = parseLyrics x.
Proof.
  unfold parseLyrics.
  set (lines := filter not_blank (split LF x)).
  assert (Hclean : Forall (fun piece => contains LF piece = false) lines)
    by (apply Forall_filter_sub, split_pieces_clean).
  assert (Hkept : Forall not_blank lines) by apply Forall_filter_holds.
  destruct (decide (lines = [])) as [-> | Hne].
  - reflexivity.
  - unfold newline. rewrite split_concat by done.
    by rewrite filter_keeps_all.
Qed.

(** ** Running the monad *)

Lemma bind_Ok {A B} (m : M A) (f : A → M B) s a s' :
  m s = (Ok a, s') → (m ≫= f) s = f a s'.
Proof. intros H. unfold mbind, M_bind. by rewrite H. Qed.

Lemma bind_Throw {A B} (m : M A) (f : A → M B) s e s' :
  m s = (Throw e, s') → (m ≫= f) s = (Throw e, s').
Proof. intros H. unfold mbind, M_bind. by rewrite H. Qed.

Lemma bind_gets {A B} (g : State → A) (f : A → M B) s :
  (gets g ≫= f) s = f (g s) s.
Proof. reflexivity. Qed.

Lemma bind_lift_Ok {A B} (a : A) (f : A → M B) s :
  (lift (Ok a) ≫= f) s = f a s.
Proof. reflexivity. Qed.

Lemma later_refl s : later s s [].
Proof. split; rewrite ?app_nil_r; auto; lia. Qed.

Lemma later_trans s1 s2 s3 e1 e2 :
  later s1 s2 e1 → later s2 s3 e2 → later s1 s3 (e1 ++ e2).
Proof.
  intros [] []. split; try congruence; [lia|].
  rewrite app_assoc. congruence.
Qed.

Lemma later_advance s d e : 0 <= d → later s (advance d e s) [e].
Proof. intros. split; simpl; auto; lia. Qed.

Lemma later_use_interceptor s i :
  later s (snd (use_interceptor i s)) [].
Proof. split; simpl; rewrite ?app_nil_r; auto; lia. Qed.

(** ** Pauses and requests *)

Lemma sleep_spec x y s :
  ∃ d, sleep x y s = (Ok (), advance d (Slept d) s) ∧ 1000 * x <= d.
Proof. eexists. split; [reflexivity | lia]. Qed.

Lemma sleep_fixed x s :
  sleep x x s = (Ok (), advance (1000 * x) (Slept (1000 * x)) s).
Proof.
  unfold sleep.
  by replace (Z.max (1000 * x) (Z.min (1000 * x) (random s (trace s))))
    with (1000 * x) by lia.
Qed.

Lemma client_request_Ok m url body timeout s latency st txt d :
  server s (trace s) (mkRequest m url body (outgoing_headers s) timeout)
    = HttpReply latency st txt d →
  timed_out timeout latency = false →
  ok_status st = true →
  client_request m url body timeout s
    = (Ok (mkResponse st txt d),
       advance (Z.of_N latency)
               (Exchange (mkRequest m url body (outgoing_headers s) timeout)
                         (HttpReply latency st txt d)) s).
Proof.
  intros Hrep Hto Hst. unfold client_request. rewrite Hrep, Hto, Hst. done.
Qed.

(** Whatever the service does, a request ends, leaves one exchange in
    the trace and does not turn the clock back. *)
Lemma client_request_later m url body timeout s :
  ∃ rep,
    later s (snd (client_request m url body timeout s))
          [Exchange (mkRequest m url body (outgoing_headers s) timeout) rep]
    ∧ interceptors (snd (client_request m url body timeout s)) = interceptors s
    ∧ fst (client_request m url body timeout s) ≠ OutOfFuel.
Proof.
  unfold client_request.
  set (req := mkRequest m url body (outgoing_headers s) timeout).
  exists (server s (trace s) req).
  destruct (timed_out timeout _) eqn:Hto.
  - split; [|done]. apply later_advance.
    destruct timeout as [t|]; simpl in *; [|done].
    apply andb_true_iff in Hto as [?%Z.ltb_lt _]. lia.
  - destruct (server s (trace s) req) as [l st txt d | l]; simpl;
      [destruct (ok_status st)|]; (split; [apply later_advance; lia | done]).
Qed.

(** ** [keepAlive] and [get] against services that answer *)

Lemma renew_url_is_renew this_sid body headers timeout :
  is_renew (mkRequest POST
              (CLERK_BASE_URL +:+ "/v1/client/sessions/"
               +:+ Js.to_string this_sid
               +:+ "/tokens/api?_clerk_js_version=4.70.0")
              body headers timeout) = true.
Proof. reflexivity. Qed.

Lemma feed_url_is_fetch songIds body headers timeout :
  is_fetch (mkRequest GET (feed_url songIds) body headers timeout) = true.
Proof. destruct songIds; reflexivity. Qed.

Lemma keepAlive_renews isWait s :
  Js.truthy (sid s) = true →
  renews_tokens (server s) →
  ∃ s' req d,
    keepAlive isWait s = (Ok (), s')
    ∧ is_renew req = true
    ∧ 1000 <= d
    ∧ later s s' (Exchange req (server s (trace s) req)
                  :: if default false isWait then [Slept d] else [])
    ∧ (default false isWait = true → now s + 1000 <= now s').
Proof.
  intros Hsid Hsrv. unfold keepAlive.
  rewrite bind_gets, Hsid. change (negb true) with false. cbv iota.
  set (url := CLERK_BASE_URL +:+ _).
  set (req := mkRequest POST url None (outgoing_headers s) None).
  destruct (Hsrv (trace s) req) as (lat & st & txt & d & jwt & Hrep & Hst & Hjwt);
    [apply renew_url_is_renew|].
  pose proof (client_request_Ok POST url None None s lat st txt d Hrep eq_refl Hst) as Hpost.
  unfold client_post. rewrite (bind_Ok _ _ _ _ _ Hpost). simpl data.
  fold req in Hpost |- *. set (s1 := advance _ _ s) in *.
  assert (L1 : later s s1 [Exchange req (server s (trace s) req)])
    by (rewrite Hrep; apply later_advance; lia).
  rewrite Hjwt.
  destruct (default false isWait) eqn:Hw.
  - destruct (sleep_spec 1 2 s1) as (p & Hsl & Hp).
    rewrite (bind_Ok _ _ _ _ _ Hsl), bind_lift_Ok.
    eexists _, req, p. split; [reflexivity|].
    split; [apply renew_url_is_renew|]. split; [lia|].
    assert (L2 : later s1 (advance p (Slept p) s1) [Slept p])
      by (apply later_advance; lia).
    pose proof (later_trans _ _ _ _ _ L1 L2) as L12.
    split.
    + pose proof (later_trans _ _ _ _ _ L12
                    (later_use_interceptor _ (SetBearer jwt))) as L.
      by rewrite app_nil_r in L.
    + intros _. destruct L1. simpl. lia.
  - change ((mret () ;; lift (Ok jwt) ≫= λ newToken, use_interceptor (SetBearer newToken)) s1)
      with (use_interceptor (SetBearer jwt) s1).
    eexists _, req, 1000. split; [reflexivity|].
    split; [apply renew_url_is_renew|]. split; [lia|].
    split; [|done].
    pose proof (later_trans _ _ _ _ _ L1
                  (later_use_interceptor _ (SetBearer jwt))) as L.
    by rewrite app_nil_r in L.
Qed.

Lemma get_fetched songIds s l :
  fetched (server s (trace s)
             (mkRequest GET (feed_url songIds) None (outgoing_headers s) (Some 3000)))
    = Some l →
  ∃ s',
    get songIds s = (Ok l, s')
    ∧ later s s' [Exchange
                    (mkRequest GET (feed_url songIds) None (outgoing_headers s) (Some 3000))
                    (server s (trace s)
                       (mkRequest GET (feed_url songIds) None (outgoing_headers s) (Some 3000)))]
    ∧ interceptors s' = interceptors s.
Proof.
  set (req := mkRequest _ _ _ _ _). intros Hf.
  destruct (server s (trace s) req) as [lat st txt d|lat] eqn:Hrep; [|done].
  unfold fetched in Hf.
  destruct (timed_out (Some 3000) lat) eqn:Hto; [done|].
  destruct (ok_status st) eqn:Hst; [|done]. cbn [negb andb] in Hf.
  destruct (js_map (audio_info feed_lyric) d) as [l'| |] eqn:Hmap; [|done..].
  injection Hf as ->.
  pose proof (client_request_Ok GET (feed_url songIds) None (Some 3000) s
                lat st txt d Hrep Hto Hst) as Hget.
  unfold get, client_get. rewrite (bind_Ok _ _ _ _ _ Hget). simpl data.
  rewrite Hmap. eexists. split; [reflexivity|].
  split; [apply later_advance; lia | done].
Qed.

(** ** The polling loop *)

Lemma poll_unfold fuel songIds startTime lastResponse s :
  poll (S fuel) songIds startTime lastResponse s =
  if now s - startTime <? 100000 then
    (get (Some songIds) ≫= λ response,
       if allCompleted response then mret response
       else sleep 3 6 ;; keepAlive (Some true) ;;
            poll fuel songIds startTime response) s
  else (Ok lastResponse, s).
Proof. simpl. rewrite bind_gets. by destruct (_ <? _). Qed.

Lemma poll_stops_when_completed
    fuel songIds startTime lastResponse s response s' :
  now s - startTime < 100000 →
  get (Some songIds) s = (Ok response, s') →
  allCompleted response = true →
  poll (S fuel) songIds startTime lastResponse s = (Ok response, s').
Proof.
  intros Hin Hget Hall. rewrite poll_unfold.
  apply Z.ltb_lt in Hin. rewrite Hin.
  rewrite (bind_Ok _ _ _ _ _ Hget), Hall. reflexivity.
Qed.


(** C10: a fetch that comes back with an empty array counts as all
    complete (the test over no job at all holds), so the loop ends on
    that iteration with the empty list: one exchange with the feed
    endpoint, no pause and no token renewal after it. *)
Theorem poll_empty_fetch_returns_empty
    fuel songIds startTime lastResponse s latency st txt :
  now s - startTime < 100000 →
  server s (trace s)
    (mkRequest GET (feed_url (Some songIds)) None (outgoing_headers s) (Some 3000))
    = HttpReply latency st txt (JArr []) →
  timed_out (Some 3000) latency = false →
  ok_status st = true →
  allCompleted [] = true
  ∧ poll (S fuel) songIds startTime lastResponse s
    = (Ok [],
       advance (Z.of_N latency)
         (Exchange
            (mkRequest GET (feed_url (Some songIds)) None (outgoing_headers s) (Some 3000))
            (HttpReply latency st txt (JArr []))) s).
Proof.
  intros Hin Hrep Hto Hst. split; [reflexivity|].
  apply poll_stops_when_completed; [done| |reflexivity].
  unfold get, client_get.
  rewrite (bind_Ok _ _ _ _ _
             (client_request_Ok GET _ None (Some 3000) s _ _ _ _ Hrep Hto Hst)).
  reflexivity.
Qed.

(** ** Fetches recorded in the trace *)

Lemma fetches_app evs1 evs2 : fetches (evs1 ++ evs2) = fetches evs1 ++ fetches evs2.
Proof. apply omap_app. Qed.

Lemma fetches_fetch req rep l evs :
  is_fetch req = true → fetched rep = Some l →
  fetches (Exchange req rep :: evs) = l :: fetches evs.
Proof. intros Hreq Hrep. unfold fetches. simpl. by rewrite Hreq, Hrep. Qed.

Lemma fetches_slept d evs : fetches (Slept d :: evs) = fetches evs.
Proof. reflexivity. Qed.

Lemma fetches_post req rep evs :
  req_method req = POST → fetches (Exchange req rep :: evs) = fetches evs.
Proof. intros Hm. unfold fetches, is_fetch. simpl. by rewrite Hm. Qed.

Lemma is_renew_POST req : is_renew req = true → req_method req = POST.
Proof. unfold is_renew. by destruct (req_method req). Qed.

Lemma is_submit_POST req : is_submit req = true → req_method req = POST.
Proof. unfold is_submit. by destruct (req_method req). Qed.

Lemma last_cons_default {A} (x d : A) (l : list A) :
  default d (last (x :: l)) = default x (last l).
Proof.
  revert x d. induction l as [|y l IH]; intros x d; [done|].
  rewrite last_cons_cons. by rewrite !IH.
Qed.

(** One pass through the loop body when the fetch shows unfinished jobs:
    fetch, pause of 3 to 6 seconds, renewal with its pause, and the loop
    goes on with the fetched list as [lastResponse]. *)
Lemma poll_goes_on fuel songIds startTime lastResponse s :
  now s - startTime < 100000 →
  Js.truthy (sid s) = true →
  renews_tokens (server s) →
  never_completes (server s) →
  ∃ l s' evs,
    poll (S fuel) songIds startTime lastResponse s
      = poll fuel songIds startTime l s'
    ∧ later s s' evs
    ∧ fetches evs = [l]
    ∧ allCompleted l = false
    ∧ now s + 4000 <= now s'.
Proof.
  intros Hin Hsid Hren Hnever. rewrite poll_unfold.
  apply Z.ltb_lt in Hin. rewrite Hin.
  set (req := mkRequest GET (feed_url (Some songIds)) None (outgoing_headers s) (Some 3000)).
  destruct (Hnever (trace s) req) as (l & Hl & Hall); [apply feed_url_is_fetch|].
  destruct (get_fetched (Some songIds) s l Hl) as (s1 & Hget & L1 & _).
  rewrite (bind_Ok _ _ _ _ _ Hget), Hall.
  destruct (sleep_spec 3 6 s1) as (d & Hsl & Hd).
  rewrite (bind_Ok _ _ _ _ _ Hsl).
  set (s2 := advance d (Slept d) s1) in *.
  assert (L2 : later s1 s2 [Slept d]) by (apply later_advance; lia).
  pose proof (later_trans _ _ _ _ _ L1 L2) as L12.
  destruct (keepAlive_renews (Some true) s2) as (s3 & rreq & p & Hka & Hrr & Hp & L3 & Hnow).
  { destruct L12 as [-> _ _ _ _ _]. done. }
  { destruct L12 as [_ _ -> _ _ _]. done. }
  rewrite (bind_Ok _ _ _ _ _ Hka).
  exists l, s3, (([Exchange req (server s (trace s) req)] ++ [Slept d])
                 ++ Exchange rreq (server s2 (trace s2) rreq) :: [Slept p]).
  split; [reflexivity|]. split; [exact (later_trans _ _ _ _ _ L12 L3)|].
  split; [|split; [done|]].
  - cbn [app]. rewrite (fetches_fetch _ _ l) by (done || apply feed_url_is_fetch).
    rewrite fetches_slept, fetches_post by (by apply is_renew_POST). done.
  - specialize (Hnow eq_refl). destruct L1, L2. subst s2. simpl in *. lia.
Qed.

Lemma poll_times_out songIds startTime n : ∀ lastResponse s,
  Js.truthy (sid s) = true →
  renews_tokens (server s) →
  never_completes (server s) →
  100000 - (now s - startTime) <= 3000 * Z.of_nat n →
  ∃ l s' evs,
    poll (S n) songIds startTime lastResponse s = (Ok l, s')
    ∧ later s s' evs
    ∧ 100000 <= now s' - startTime
    ∧ l = default lastResponse (last (fetches evs))
    ∧ Forall (λ l, allCompleted l = false) (fetches evs).
Proof.
  induction n as [|n IH]; intros lastResponse s Hsid Hren Hnever Hfuel.
  - exists lastResponse, s, []. rewrite poll_unfold.
    destruct (now s - startTime <? 100000) eqn:Hin; [apply Z.ltb_lt in Hin; lia|].
    apply Z.ltb_ge in Hin. split; [done|]. split; [apply later_refl|].
    split; [done|]. split; [done|constructor].
  - destruct (Z.lt_ge_cases (now s - startTime) 100000) as [Hin|Hout].
    + destruct (poll_goes_on (S n) songIds startTime lastResponse s Hin Hsid Hren Hnever)
        as (l1 & s1 & evs1 & Hstep & L1 & Hf1 & Hall1 & Hnow).
      destruct (IH l1 s1) as (l & s' & evs & Hrun & L & Hdead & Hl & Hall).
      { by rewrite (later_sid _ _ _ L1). }
      { by rewrite (later_server _ _ _ L1). }
      { by rewrite (later_server _ _ _ L1). }
      { lia. }
      exists l, s', (evs1 ++ evs). rewrite Hstep. split; [done|].
      split; [exact (later_trans _ _ _ _ _ L1 L)|]. split; [done|].
      rewrite fetches_app, Hf1. simpl app.
      split; [by rewrite last_cons_default | by constructor].
    + exists lastResponse, s, []. rewrite poll_unfold.
      apply Z.ltb_ge in Hout as Hb. rewrite Hb.
      split; [done|]. split; [apply later_refl|].
      split; [done|]. split; [done|constructor].
Qed.

(** ** [generateSongs] *)

(** An accepted submission that waits: the rest of [generateSongs] is
    the polling loop, entered after a pause of five seconds with the
    clock reading taken before the pause and an empty [lastResponse]. *)
Lemma generateSongs_wait_enters_loop
    fuel prompt isCustom tags title make_instrumental s :
  accepts_submissions (server s) →
  ∃ req s1 s2 songIds,
    is_submit req = true
    ∧ req_body req = Some (generateSongs_payload prompt isCustom tags title
                                                   make_instrumental)
    ∧ later s s1 [Exchange req (server s (trace s) req)]
    ∧ interceptors s1 = interceptors s
    ∧ later s1 s2 [Slept 5000]
    ∧ now s2 = now s1 + 5000
    ∧ generateSongs fuel prompt isCustom tags title make_instrumental true s
      = poll fuel songIds (now s1) [] s2.
Proof.
  intros Hacc. unfold generateSongs.
  set (payload := generateSongs_payload _ _ _ _ _).
  set (url := BASE_URL +:+ "/api/generate/v2/").
  set (req := mkRequest POST url (Some payload) (outgoing_headers s) (Some 10000)).
  destruct (Hacc (trace s) req) as (lat & txt & d & clips & ids & Hrep & Hto & Hclips & Hids);
    [reflexivity|].
  pose proof (client_request_Ok POST url (Some payload) (Some 10000) s
                lat 200 txt d Hrep Hto eq_refl) as Hpost.
  fold req in Hpost. set (s1 := advance _ _ s) in Hpost.
  unfold client_post. rewrite (bind_Ok _ _ _ _ _ Hpost).
  cbn [status data statusText]. change (negb (200 =? 200)) with false. cbv iota.
  rewrite Hclips, bind_lift_Ok, Hids, bind_lift_Ok, bind_gets.
  rewrite (bind_Ok _ _ _ _ _ (sleep_fixed 5 s1)).
  exists req, s1, (advance 5000 (Slept 5000) s1), ids.
  split; [reflexivity|]. split; [reflexivity|].
  split; [rewrite Hrep; apply later_advance; lia|].
  split; [reflexivity|]. split; [apply later_advance; lia|].
  split; reflexivity.
Qed.

Lemma last_cons_Some {A} (x : A) (l : list A) :
  last (x :: l) = Some (default x (last l)).
Proof.
  revert x. induction l as [|y l IH]; intros x; [done|].
  by rewrite last_cons_cons, IH.
Qed.

(** C2: a submission that waits, against services that accept it, renew
    the token whenever asked and never show all jobs streaming or
    complete, still returns: with a step budget of 33 loop tests or more
    the loop ends, by then at least 100 seconds have passed on the clock
    since [startTime] (the reading taken when the loop is entered, right
    before the first pause), and the result is no error but the list of
    the last fetch, unfinished as it is. *)
Theorem generateSongs_wait_times_out
    fuel prompt isCustom tags title make_instrumental s :
  (33 <= fuel)%nat →
  Js.truthy (sid s) = true →
  accepts_submissions (server s) →
  renews_tokens (server s) →
  never_completes (server s) →
  ∃ l s' evs startTime,
    generateSongs fuel prompt isCustom tags title make_instrumental true s
      = (Ok l, s')
    ∧ later s s' evs
    ∧ now s <= startTime
    ∧ 100000 <= now s' - startTime
    ∧ last (fetches evs) = Some l
    ∧ allCompleted l = false.
Proof.
  intros Hfuel Hsid Hacc Hren Hnever.
  destruct (generateSongs_wait_enters_loop fuel prompt isCustom tags title
              make_instrumental s Hacc)
    as (req & s1 & s2 & ids & Hsub & _ & L1 & _ & L2 & Hnow2 & ->).
  pose proof (later_trans _ _ _ _ _ L1 L2) as L12.
  destruct fuel as [|[|n]]; [lia..|].
  destruct (poll_goes_on (S n) ids (now s1) [] s2) as
    (l1 & s3 & evs1 & -> & L3 & Hf1 & Hall1 & Hnow3).
  { lia. }
  { by rewrite (later_sid _ _ _ L12). }
  { by rewrite (later_server _ _ _ L12). }
  { by rewrite (later_server _ _ _ L12). }
  pose proof (later_trans _ _ _ _ _ L12 L3) as L123.
  destruct (poll_times_out ids (now s1) n l1 s3)
    as (l & s' & evs & Hrun & L & Hdead & Hl & Hall).
  { by rewrite (later_sid _ _ _ L123). }
  { by rewrite (later_server _ _ _ L123). }
  { by rewrite (later_server _ _ _ L123). }
  { lia. }
  exists l, s', ((([Exchange req (server s (trace s) req)] ++ [Slept 5000]) ++ evs1) ++ evs),
    (now s1).
  split; [done|]. split; [exact (later_trans _ _ _ _ _ L123 L)|].
  split; [apply (later_now _ _ _ L1)|]. split; [done|]. split.
  - rewrite !fetches_app. cbn [app].
    rewrite fetches_post by (by apply is_submit_POST).
    rewrite fetches_slept. change (fetches []) with (@nil (list AudioInfo.t)).
    rewrite Hf1. cbn [app]. by rewrite last_cons_Some, Hl.
  - subst l. destruct (last (fetches evs)) as [l2|] eqn:Hlast; [|done].
    apply last_Some_elem_of in Hlast.
    by apply (proj1 (Forall_forall _ _) Hall).
Qed.

(** ** The mappings *)

Lemma mapM_Ok_fmap {A B} (f : A → Res B) (g : A → B) (l : list A) :
  Forall (λ x, f x = Ok (g x)) l → mapM f l = Ok (g <$> l).
Proof.
  induction 1 as [|x l Hx _ IH]; [done|].
  simpl. rewrite Hx. simpl. rewrite IH. done.
Qed.

Lemma audio_info_record (g : JsVal → Res JsVal) (h : JsVal → JsVal) a :
  has_metadata a →
  g (Js.peek "prompt" (Js.peek "metadata" a))
    = Ok (h (Js.peek "prompt" (Js.peek "metadata" a))) →
  audio_info g a = Ok (record_of h a).
Proof.
  intros [Ha Hm] Hg. unfold audio_info, Js.prop. rewrite Ha.
  cbn [mbind Res_bind]. rewrite Hm. cbn [mbind Res_bind]. rewrite Hg.
  reflexivity.
Qed.

Lemma feed_lyric_normalized a :
  prompt_is_text a →
  feed_lyric (Js.peek "prompt" (Js.peek "metadata" a))
    = Ok (normalized_lyric (Js.peek "prompt" (Js.peek "metadata" a))).
Proof.
  unfold prompt_is_text, feed_lyric, normalized_lyric.
  destruct (Js.peek "prompt" _) as [| |b|n|p|l|m]; try (intros ->; done).
  intros _. destruct (Js.truthy (JStr p)) eqn:Hp; [done|].
  simpl in Hp. apply negb_false_iff, String.eqb_eq in Hp. by subst p.
Qed.

Lemma has_metadata_id a : has_metadata a → Js.prop "id" a = Ok (Js.peek "id" a).
Proof. intros [Ha _]. unfold Js.prop. by rewrite Ha. Qed.

Lemma join_strings sep (ids : list string) :
  Js.join sep (JStr <$> ids) = String.concat sep ids.
Proof.
  unfold Js.join. f_equal. induction ids as [|i ids IH]; [done|].
  simpl. f_equal. exact IH.
Qed.

(** C6: [get] asks the feed endpoint, with no query when the ids are
    left out and with [?ids=] and the ids joined by commas when they are
    given; when the service answers in time with an array of entries
    (each with its metadata, the raw prompt a string or missing) the
    result is that array mapped entry by entry in the order of the
    response, the lyric of a record being the normalised raw prompt when
    there is one and the empty string otherwise. *)
Theorem get_maps_feed (jobIds : option (list string)) s latency st txt
    (audios : list JsVal) :
  let url := match jobIds with
             | None => "https://studio-api.suno.ai/api/feed/"
             | Some ids => "https://studio-api.suno.ai/api/feed/?ids="
                           +:+ String.concat "," ids
             end in
  let req := mkRequest GET url None (outgoing_headers s) (Some 3000) in
  server s (trace s) req = HttpReply latency st txt (JArr audios) →
  timed_out (Some 3000) latency = false →
  ok_status st = true →
  Forall has_metadata audios →
  Forall prompt_is_text audios →
  get (fmap (M:=option) (fmap (M:=list) JStr) jobIds) s
    = (Ok (record_of normalized_lyric <$> audios),
       advance (Z.of_N latency)
               (Exchange req (HttpReply latency st txt (JArr audios))) s).
Proof.
  intros url req Hrep Hto Hst Hmeta Htext.
  assert (Hurl : feed_url (fmap (M:=option) (fmap (M:=list) JStr) jobIds) = url).
  { destruct jobIds as [ids|]; [|done].
    unfold feed_url, url. simpl. by rewrite join_strings. }
  unfold get, client_get. rewrite Hurl.
  rewrite (bind_Ok _ _ _ _ _
             (client_request_Ok GET url None (Some 3000) s _ _ _ _ Hrep Hto Hst)).
  cbn [data]. unfold js_map.
  rewrite (mapM_Ok_fmap _ (record_of normalized_lyric)); [done|].
  rewrite Forall_forall in Hmeta, Htext. apply Forall_forall. intros a Ha.
  apply audio_info_record; [by apply Hmeta|].
  apply feed_lyric_normalized. by apply Htext.
Qed.

(** C5: a submission that does not wait, accepted in time with a list of
    clips, against an identity service that renews the token: the run
    is one submission call, one token renewal and the pause of the
    blocking-delay variant, with no request to the feed; the result is
    the clips of the submission response mapped one by one, so it is as
    long as the list of job ids. *)
Theorem generateSongs_no_wait
    fuel prompt isCustom tags title make_instrumental s latency txt d
    (clips : list JsVal) :
  let req := mkRequest POST "https://studio-api.suno.ai/api/generate/v2/"
               (Some (generateSongs_payload prompt isCustom tags title
                                            make_instrumental))
               (outgoing_headers s) (Some 10000) in
  Js.truthy (sid s) = true →
  renews_tokens (server s) →
  server s (trace s) req = HttpReply latency 200 txt d →
  timed_out (Some 10000) latency = false →
  Js.prop "clips" d = Ok (JArr clips) →
  Forall has_metadata clips →
  ∃ infos songIds s' renew reply pause,
    generateSongs fuel prompt isCustom tags title make_instrumental false s
      = (Ok infos, s')
    ∧ infos = record_of (λ raw, raw) <$> clips
    ∧ js_map (Js.prop "id") (JArr clips) = Ok songIds
    ∧ length infos = length songIds
    ∧ trace s' = trace s ++ [Exchange req (HttpReply latency 200 txt d);
                             Exchange renew reply; Slept pause]
    ∧ is_renew renew = true
    ∧ fetches [Exchange req (HttpReply latency 200 txt d);
               Exchange renew reply; Slept pause] = [].
Proof.
  intros req Hsid Hren Hrep Hto Hclips Hmeta.
  assert (Hids : js_map (Js.prop "id") (JArr clips) = Ok (Js.peek "id" <$> clips)).
  { apply mapM_Ok_fmap. eapply Forall_impl; [exact Hmeta|]. apply has_metadata_id. }
  assert (Hinfos : js_map (audio_info Ok) (JArr clips)
                   = Ok (record_of (λ raw, raw) <$> clips)).
  { apply mapM_Ok_fmap. eapply Forall_impl; [exact Hmeta|].
    intros a Ha. by apply audio_info_record. }
  pose proof (client_request_Ok POST _ _ (Some 10000) s _ 200 _ _ Hrep Hto eq_refl)
    as Hpost.
  fold req in Hpost. set (s1 := advance _ _ s) in Hpost.
  destruct (keepAlive_renews (Some true) s1 Hsid Hren)
    as (s' & rreq & p & Hka & Hrr & Hp & L & _).
  exists (record_of (λ raw, raw) <$> clips), (Js.peek "id" <$> clips), s',
    rreq, (server s1 (trace s1) rreq), p.
  split.
  - unfold generateSongs, client_post.
    change (BASE_URL +:+ "/api/generate/v2/")
      with "https://studio-api.suno.ai/api/generate/v2/".
    rewrite (bind_Ok _ _ _ _ _ Hpost).
    cbn [status data statusText]. change (negb (200 =? 200)) with false. cbv iota.
    rewrite Hclips, bind_lift_Ok, Hids, bind_lift_Ok.
    rewrite (bind_Ok _ _ _ _ _ Hka), bind_lift_Ok. by rewrite Hinfos.
  - split; [done|]. split; [done|]. split; [by rewrite !length_fmap|].
    split; [|split; [done|]].
    + rewrite (later_trace _ _ _ L). subst s1. simpl. by rewrite <- app_assoc.
    + rewrite fetches_post by done. rewrite fetches_post by (by apply is_renew_POST).
      done.
Qed.

(** ** What every run leaves alone *)

Lemma steady_bind {A B} (m : M A) (k : A → M B) :
  steady m → (∀ a, steady (k a)) → steady (m ≫= k).
Proof.
  intros Hm Hk s. destruct (Hm s) as [e1 L1].
  unfold mbind, M_bind. destruct (m s) as [[a|e|] s1]; simpl in L1.
  - destruct (Hk a s1) as [e2 L2]. exists (e1 ++ e2).
    exact (later_trans _ _ _ _ _ L1 L2).
  - by exists e1.
  - by exists e1.
Qed.

Lemma steady_still {A} (r : Res A) : steady (lift r).
Proof. intros s. exists []. apply later_refl. Qed.

Lemma steady_mret {A} (a : A) : steady (mret a : M A).
Proof. intros s. exists []. apply later_refl. Qed.

Lemma steady_throw {A} e : steady (throw e : M A).
Proof. intros s. exists []. apply later_refl. Qed.

Lemma steady_gets {A} (g : State → A) : steady (gets g).
Proof. intros s. exists []. apply later_refl. Qed.

Lemma steady_sleep x y : 0 <= x → steady (sleep x y).
Proof.
  intros Hx s. destruct (sleep_spec x y s) as (d & -> & Hd).
  eexists. apply later_advance. lia.
Qed.

Lemma steady_client_request m url body timeout :
  steady (client_request m url body timeout).
Proof.
  intros s. destruct (client_request_later m url body timeout s) as (rep & L & _).
  by eexists.
Qed.

Lemma steady_use_interceptor i : steady (use_interceptor i).
Proof. intros s. exists []. apply later_use_interceptor. Qed.

Lemma steady_keepAlive isWait : steady (keepAlive isWait).
Proof.
  unfold keepAlive. apply steady_bind; [apply steady_gets|]. intros this_sid.
  destruct (negb _); [apply steady_throw|].
  apply steady_bind; [apply steady_client_request|]. intros renewResponse.
  apply steady_bind.
  { destruct (default false isWait); [by apply steady_sleep | apply steady_mret]. }
  intros _. apply steady_bind; [apply steady_still|]. intros newToken.
  apply steady_use_interceptor.
Qed.

Lemma steady_get songIds : steady (get songIds).
Proof.
  unfold get. apply steady_bind; [apply steady_client_request|].
  intros response. apply steady_still.
Qed.

Lemma steady_poll fuel songIds startTime : ∀ lastResponse,
  steady (poll fuel songIds startTime lastResponse).
Proof.
  induction fuel as [|fuel IH]; intros lastResponse.
  - intros s. exists []. apply later_refl.
  - simpl. apply steady_bind; [apply steady_gets|]. intros t.
    destruct (_ <? _); [|apply steady_mret].
    apply steady_bind; [apply steady_get|]. intros response.
    destruct (allCompleted response); [apply steady_mret|].
    apply steady_bind; [by apply steady_sleep|]. intros _.
    apply steady_bind; [apply steady_keepAlive|]. intros _. apply IH.
Qed.

(** Whatever happens next, the first thing [generateSongs] does is post
    its payload to the submission endpoint, with a timeout of ten
    seconds. *)
Lemma generateSongs_posts_payload
    fuel prompt isCustom tags title make_instrumental wait_audio s :
  ∃ reply rest,
    trace (snd (generateSongs fuel prompt isCustom tags title
                              make_instrumental wait_audio s))
    = trace s
      ++ Exchange
           (mkRequest POST "https://studio-api.suno.ai/api/generate/v2/"
              (Some (generateSongs_payload prompt isCustom tags title
                                           make_instrumental))
              (outgoing_headers s) (Some 10000))
           reply
         :: rest.
Proof.
  unfold generateSongs, client_post.
  change (BASE_URL +:+ "/api/generate/v2/")
    with "https://studio-api.suno.ai/api/generate/v2/".
  set (payload := generateSongs_payload _ _ _ _ _).
  set (post := client_request POST _ (Some payload) (Some 10000)).
  destruct (client_request_later POST "https://studio-api.suno.ai/api/generate/v2/"
              (Some payload) (Some 10000) s) as (rep & L1 & _).
  fold post in L1.
  match goal with |- context [(post ≫= ?k) s] => set (rest_of_run := k) end.
  assert (Hk : ∀ response, steady (rest_of_run response)).
  { intros response. unfold rest_of_run.
    destruct (negb _); [apply steady_throw|].
    apply steady_bind; [apply steady_still|]. intros clips.
    apply steady_bind; [apply steady_still|]. intros songIds.
    destruct wait_audio.
    - apply steady_bind; [apply steady_gets|]. intros startTime.
      apply steady_bind; [by apply steady_sleep|]. intros _. apply steady_poll.
    - apply steady_bind; [apply steady_keepAlive|]. intros _.
      apply steady_bind; [apply steady_still|]. intros clips'. apply steady_still. }
  exists rep. unfold mbind, M_bind.
  destruct (post s) as [[response|e|] s1]; simpl in L1.
  - destruct (Hk response s1) as [evs L2]. exists evs.
    rewrite (later_trace _ _ _ L2), (later_trace _ _ _ L1).
    by rewrite <- app_assoc.
  - exists []. exact (later_trace _ _ _ L1).
  - exists []. exact (later_trace _ _ _ L1).
Qed.

(** ** The loop ends, whatever the services do *)

Lemma ends_bind {A B} (m : M A) (k : A → M B) :
  ends m → (∀ a, ends (k a)) → ends (m ≫= k).
Proof.
  intros Hm Hk s. specialize (Hm s). unfold mbind, M_bind.
  destruct (m s) as [[a|e|] s1]; [apply Hk | done | done].
Qed.

Lemma ends_lift {A} (r : Res A) : r ≠ OutOfFuel → ends (lift r).
Proof. by intros Hr s. Qed.

Lemma prop_ends k v : Js.prop k v ≠ OutOfFuel.
Proof. unfold Js.prop. by destruct (Js.nullish v). Qed.

Lemma mapM_ends {A B} (f : A → Res B) (l : list A) :
  (∀ x, f x ≠ OutOfFuel) → mapM f l ≠ OutOfFuel.
Proof.
  intros Hf. induction l as [|x l IH]; [done|].
  simpl. specialize (Hf x). destruct (f x) as [y| |]; [|done..].
  simpl. by destruct (mapM f l).
Qed.

Lemma js_map_ends {A} (f : JsVal → Res A) v :
  (∀ x, f x ≠ OutOfFuel) → js_map f v ≠ OutOfFuel.
Proof. intros Hf. destruct v; try done. by apply mapM_ends. Qed.

Lemma feed_lyric_ends raw : feed_lyric raw ≠ OutOfFuel.
Proof. unfold feed_lyric. by destruct (Js.truthy raw), raw. Qed.

Lemma audio_info_ends g a :
  (∀ raw, g raw ≠ OutOfFuel) → audio_info g a ≠ OutOfFuel.
Proof.
  intros Hg. unfold audio_info, Js.prop.
  destruct (Js.nullish a); [done|]. cbn [mbind Res_bind].
  destruct (Js.nullish (Js.peek "metadata" a)); [done|]. cbn [mbind Res_bind].
  specialize (Hg (Js.peek "prompt" (Js.peek "metadata" a))).
  by destruct (g _).
Qed.

Lemma ends_client_request m url body timeout :
  ends (client_request m url body timeout).
Proof.
  intros s. by destruct (client_request_later m url body timeout s) as (_ & _ & _ & H).
Qed.

Lemma ends_sleep x y : ends (sleep x y).
Proof. by intros s. Qed.

Lemma ends_keepAlive isWait : ends (keepAlive isWait).
Proof.
  unfold keepAlive. apply ends_bind; [done|]. intros this_sid.
  destruct (negb _); [done|].
  apply ends_bind; [apply ends_client_request|]. intros renewResponse.
  apply ends_bind; [by destruct (default false isWait)|]. intros _.
  apply ends_bind; [apply ends_lift, prop_ends | done].
Qed.

Lemma ends_get songIds : ends (get songIds).
Proof.
  unfold get. apply ends_bind; [apply ends_client_request|]. intros response.
  apply ends_lift, js_map_ends. intros a.
  apply audio_info_ends, feed_lyric_ends.
Qed.

(** Each pass through the loop body that comes back to the loop test
    has spent three seconds or more, so a budget of one test per three
    seconds left until the deadline, and one more, is never used up:
    the loop returns a list or throws. *)
Lemma poll_ends songIds startTime n : ∀ lastResponse s,
  100000 - (now s - startTime) <= 3000 * Z.of_nat n →
  fst (poll (S n) songIds startTime lastResponse s) ≠ OutOfFuel.
Proof.
  induction n as [|n IH]; intros lastResponse s Hfuel; rewrite poll_unfold.
  - destruct (now s - startTime <? 100000) eqn:Hin; [|done].
    apply Z.ltb_lt in Hin. lia.
  - destruct (now s - startTime <? 100000) eqn:Hin; [|done].
    pose proof (ends_get (Some songIds) s) as Hget.
    destruct (steady_get (Some songIds) s) as [e1 L1].
    unfold mbind at 1, M_bind.
    destruct (get (Some songIds) s) as [[response|e|] s1]; [|done..].
    simpl in L1. destruct (allCompleted response); [done|].
    destruct (sleep_spec 3 6 s1) as (d & Hsl & Hd).
    rewrite (bind_Ok _ _ _ _ _ Hsl).
    pose proof (ends_keepAlive (Some true) (advance d (Slept d) s1)) as Hka.
    destruct (steady_keepAlive (Some true) (advance d (Slept d) s1)) as [e3 L3].
    unfold mbind at 1, M_bind.
    destruct (keepAlive (Some true) (advance d (Slept d) s1)) as [[[]|e|] s3];
      [|done..].
    simpl in L3. apply IH.
    pose proof (later_now _ _ _ L1). pose proof (later_now _ _ _ L3).
    simpl in *. lia.
Qed.

(** With 35 loop tests of budget, [generateSongs] returns a list or
    throws, waiting or not, whatever the services answer. *)
Lemma generateSongs_ends
    fuel prompt isCustom tags title make_instrumental wait_audio :
  (35 <= fuel)%nat →
  ends (generateSongs fuel prompt isCustom tags title make_instrumental wait_audio).
Proof.
  intros Hfuel. unfold generateSongs.
  apply ends_bind; [apply ends_client_request|]. intros response.
  destruct (negb _); [done|].
  apply ends_bind; [apply ends_lift, prop_ends|]. intros clips.
  apply ends_bind; [apply ends_lift, js_map_ends; intros; apply prop_ends|].
  intros songIds. destruct wait_audio.
  - intros s. rewrite bind_gets, (bind_Ok _ _ _ _ _ (sleep_fixed 5 s)).
    destruct fuel as [|n]; [lia|]. apply poll_ends. simpl. lia.
  - apply ends_bind; [apply ends_keepAlive|]. intros _.
    apply ends_bind; [apply ends_lift, prop_ends|]. intros clips'.
    apply ends_lift, js_map_ends. intros a. by apply audio_info_ends.
Qed.

(** ** The payload *)

(** C4: the payload of a submission, which every generation request
    posts to the submission endpoint before anything else.  In custom
    mode it holds [tags], [title] and the prompt text under [prompt];
    otherwise it holds the prompt text under [gpt_description_prompt]
    only, [prompt] is the empty string and [tags] and [title] are
    absent.  In both modes [make_instrumental] is a boolean, true only
    for the argument [true], and [mv] is "chirp-v3-0".  The prompt
    "a calm piano piece" without custom mode and without the
    instrumental flag gives exactly the four-field payload of the
    scenario, and that is what [generate] posts for it. *)
Theorem generateSongs_payload_fields :
  (∀ fuel prompt isCustom tags title make_instrumental wait_audio s,
     ∃ reply rest,
       trace (snd (generateSongs fuel prompt isCustom tags title
                                 make_instrumental wait_audio s))
       = trace s
         ++ Exchange
              (mkRequest POST "https://studio-api.suno.ai/api/generate/v2/"
                 (Some (generateSongs_payload prompt isCustom tags title
                                              make_instrumental))
                 (outgoing_headers s) (Some 10000))
              reply
            :: rest)
  ∧ (∀ prompt tags title make_instrumental,
       let payload := generateSongs_payload prompt true tags title make_instrumental in
       payload !! "tags" = Some (from_optional tags)
       ∧ payload !! "title" = Some (from_optional title)
       ∧ payload !! "prompt" = Some (JStr prompt)
       ∧ payload !! "gpt_description_prompt" = None
       ∧ payload !! "make_instrumental"
         = Some (JBool (bool_decide (make_instrumental = Some true)))
       ∧ payload !! "mv" = Some (JStr "chirp-v3-0"))
  ∧ (∀ prompt tags title make_instrumental,
       let payload := generateSongs_payload prompt false tags title make_instrumental in
       payload !! "gpt_description_prompt" = Some (JStr prompt)
       ∧ payload !! "prompt" = Some (JStr "")
       ∧ payload !! "tags" = None
       ∧ payload !! "title" = None
       ∧ payload !! "make_instrumental"
         = Some (JBool (bool_decide (make_instrumental = Some true)))
       ∧ payload !! "mv" = Some (JStr "chirp-v3-0"))
  ∧ generateSongs_payload "a calm piano piece" false None None (Some false)
    = {[ "gpt_description_prompt" := JStr "a calm piano piece";
         "make_instrumental" := JBool false;
         "mv" := JStr "chirp-v3-0";
         "prompt" := JStr "" ]}
  ∧ (∀ fuel s,
       ∃ reply rest,
         trace (snd (generate fuel "a calm piano piece" None None s))
         = trace s
           ++ Exchange
                (mkRequest POST "https://studio-api.suno.ai/api/generate/v2/"
                   (Some {[ "gpt_description_prompt" := JStr "a calm piano piece";
                            "make_instrumental" := JBool false;
                            "mv" := JStr "chirp-v3-0";
                            "prompt" := JStr "" ]})
                   (outgoing_headers s) (Some 10000))
                reply
              :: rest).
Proof.
  assert (Hscenario :
            generateSongs_payload "a calm piano piece" false None None (Some false)
            = {[ "gpt_description_prompt" := JStr "a calm piano piece";
                 "make_instrumental" := JBool false;
                 "mv" := JStr "chirp-v3-0";
                 "prompt" := JStr "" ]})
    by (vm_compute; reflexivity).
  split; [|split; [|split; [|split]]].
  - intros. apply generateSongs_posts_payload.
  - intros prompt tags title [[|]|]; repeat split; reflexivity.
  - intros prompt tags title [[|]|]; repeat split; reflexivity.
  - exact Hscenario.
  - intros fuel s. unfold generate. cbn [default]. rewrite <- Hscenario.
    apply generateSongs_posts_payload.
Qed.

(** ** The session *)

(** C8: [keepAlive] before a session id has been stored throws the
    error "Session ID is not set. Cannot renew token." at once: no
    request is sent and the state is the one it started from. *)
Theorem keepAlive_without_session isWait s :
  Js.truthy (sid s) = false →
  keepAlive isWait s
    = (Throw (Error "Session ID is not set. Cannot renew token."), s).
Proof. intros Hsid. unfold keepAlive. rewrite bind_gets, Hsid. reflexivity. Qed.

(** The handshake when the identity service answers with a client
    object that names no active session: [init] stops in [getAuthToken]
    with the error "Failed to get session id"; the session id is not
    touched and the renewal is never requested. *)
Lemma init_without_session_id s latency st txt d :
  server s (trace s)
    (mkRequest GET "https://clerk.suno.ai/v1/client?_clerk_js_version=4.70.5"
               None (outgoing_headers s) None)
    = HttpReply latency st txt d →
  ok_status st = true →
  Js.nullish d = false →
  Js.nullish (Js.peek "response" d) = false →
  Js.truthy (Js.peek "last_active_session_id" (Js.peek "response" d)) = false →
  init s
    = (Throw (Error "Failed to get session id"),
       advance (Z.of_N latency)
         (Exchange
            (mkRequest GET "https://clerk.suno.ai/v1/client?_clerk_js_version=4.70.5"
                       None (outgoing_headers s) None)
            (HttpReply latency st txt d)) s).
Proof.
  intros Hrep Hst Hd Hr Hsid. unfold init. apply bind_Throw.
  unfold getAuthToken, client_get.
  change (CLERK_BASE_URL +:+ "/v1/client?_clerk_js_version=4.70.5")
    with "https://clerk.suno.ai/v1/client?_clerk_js_version=4.70.5".
  rewrite (bind_Ok _ _ _ _ _ (client_request_Ok GET _ None None s _ _ _ _ Hrep eq_refl Hst)).
  cbn [data]. unfold Js.prop. rewrite Hd, bind_lift_Ok, Hr, bind_lift_Ok, Hsid.
  reflexivity.
Qed.

(** The same handshake when the answer holds no client object at all
    ([response] is [null] or missing): the read of
    [last_active_session_id] throws a [TypeError] before the test of
    the session id is reached. *)
Lemma init_without_client_object s latency st txt d :
  server s (trace s)
    (mkRequest GET "https://clerk.suno.ai/v1/client?_clerk_js_version=4.70.5"
               None (outgoing_headers s) None)
    = HttpReply latency st txt d →
  ok_status st = true →
  Js.nullish d = false →
  Js.nullish (Js.peek "response" d) = true →
  init s
    = (Throw TypeError,
       advance (Z.of_N latency)
         (Exchange
            (mkRequest GET "https://clerk.suno.ai/v1/client?_clerk_js_version=4.70.5"
                       None (outgoing_headers s) None)
            (HttpReply latency st txt d)) s).
Proof.
  intros Hrep Hst Hd Hr. unfold init. apply bind_Throw.
  unfold getAuthToken, client_get.
  change (CLERK_BASE_URL +:+ "/v1/client?_clerk_js_version=4.70.5")
    with "https://clerk.suno.ai/v1/client?_clerk_js_version=4.70.5".
  rewrite (bind_Ok _ _ _ _ _ (client_request_Ok GET _ None None s _ _ _ _ Hrep eq_refl Hst)).
  cbn [data]. unfold Js.prop. rewrite Hd, bind_lift_Ok, Hr. reflexivity.
Qed.

(** C7, as the code runs it on the answer the identity service gives a
    client it does not know, [{response: null, client: null}]: [init]
    fails and stores no session id after the one request of the
    handshake, but what it throws is the [TypeError] of the property
    read, not the error "Failed to get session id". *)
Theorem init_signed_out_throws_TypeError :
  let run := init (Demo.fresh Demo.signed_out) in
  fst run = Throw TypeError
  ∧ fst run ≠ Throw (Error "Failed to get session id")
  ∧ sid (snd run) = JUndefined
  ∧ length (trace (snd run)) = 1%nat.
Proof.
  cbv zeta.
  rewrite (init_without_client_object (Demo.fresh Demo.signed_out)
             10 200 "OK" (Demo.obj [("response", JNull); ("client", JNull)]));
    try reflexivity.
  repeat split. discriminate.
Qed.

(** ** The token a request carries *)

Lemma fold_interceptors_last hs t h :
  fold_left (λ h i, run_interceptor i h) (hs ++ [SetBearer t]) h !! "Authorization"
  = Some ("Bearer " +:+ Js.to_string t).
Proof. rewrite fold_left_app. simpl. apply lookup_insert_eq. Qed.

(** Every request carries the token of the interceptor registered
    first, however many were registered after it. *)
Lemma outgoing_first_token s t rest :
  interceptors s = SetBearer t :: rest →
  outgoing_headers s !! "Authorization" = Some ("Bearer " +:+ Js.to_string t).
Proof.
  intros Hs. unfold outgoing_headers, request_chain. rewrite Hs. simpl rev.
  apply fold_interceptors_last.
Qed.

(** C3, as the code runs it: after [init] has obtained "token1" and a
    further [keepAlive] has obtained "token2", both interceptors are
    registered and the next request, a fetch of the feed, carries
    "Bearer token1", the older token. *)
Theorem second_renewal_keeps_first_token :
  let s2 := snd ((init ;; keepAlive None) (Demo.fresh (Demo.services "queued"))) in
  interceptors s2 = [SetBearer (JStr "token1"); SetBearer (JStr "token2")]
  ∧ outgoing_headers s2 !! "Authorization" = Some "Bearer token1"
  ∧ ∃ req rep,
      last (trace (snd (get None s2))) = Some (Exchange req rep)
      ∧ is_fetch req = true
      ∧ req_headers req !! "Authorization" = Some "Bearer token1".
Proof.
  cbv zeta.
  assert (Hhs : interceptors (snd ((init ;; keepAlive None)
                                     (Demo.fresh (Demo.services "queued"))))
                = [SetBearer (JStr "token1"); SetBearer (JStr "token2")])
    by (vm_compute; reflexivity).
  split; [exact Hhs|]. split; [exact (outgoing_first_token _ _ _ Hhs)|].
  eexists _, _. split; [vm_compute; reflexivity|].
  split; vm_compute; reflexivity.
Qed.

(** ** The scripted services meet the assumptions *)

Lemma is_fetch_not_post req :
  is_fetch req = true → is_submit req = false ∧ is_renew req = false.
Proof. unfold is_fetch, is_submit, is_renew. by destruct (req_method req). Qed.

Lemma is_renew_not_submit req : is_renew req = true → is_submit req = false.
Proof.
  unfold is_renew, is_submit. destruct (req_method req); [done|].
  intros H. destruct (String.eqb _ _) eqn:E; [|done].
  apply String.eqb_eq in E. rewrite E in H. discriminate H.
Qed.

Lemma services_accept st : accepts_submissions (Demo.services st).
Proof.
  intros tr req Hreq. unfold Demo.services. rewrite Hreq.
  eexists _, _, _, _, _. repeat split; reflexivity.
Qed.

Lemma services_renew st : renews_tokens (Demo.services st).
Proof.
  intros tr req Hreq. unfold Demo.services.
  rewrite (is_renew_not_submit _ Hreq), Hreq.
  eexists _, _, _, _, _. repeat split; reflexivity.
Qed.

Lemma services_never_complete : never_completes (Demo.services "queued").
Proof.
  intros tr req Hreq. unfold Demo.services.
  destruct (is_fetch_not_post _ Hreq) as [-> ->]. rewrite Hreq.
  eexists. split; vm_compute; reflexivity.
Qed.

(** ** The theorems at the scripted services *)


Lemma poll_empty_fetch_returns_empty_witness :
  allCompleted [] = true
  ∧ fst (poll 1 [JStr "a1"; JStr "a2"] 0 [] (Demo.ready Demo.empty_feed)) = Ok [].
Proof.
  pose proof (poll_empty_fetch_returns_empty 0 [JStr "a1"; JStr "a2"] 0 []
                (Demo.ready Demo.empty_feed) 30 200 "OK") as H.
  destruct H as [Hall Hrun].
  - vm_compute. reflexivity.
  - vm_compute. reflexivity.
  - vm_compute. reflexivity.
  - vm_compute. reflexivity.
  - split; [exact Hall|]. rewrite Hrun. reflexivity.
Defined.

Lemma generateSongs_wait_times_out_witness :
  ∃ l s' evs startTime,
    generateSongs 40 "a calm piano piece" false None None (Some false) true
                  (Demo.ready (Demo.services "queued"))
      = (Ok l, s')
    ∧ later (Demo.ready (Demo.services "queued")) s' evs
    ∧ now (Demo.ready (Demo.services "queued")) <= startTime
    ∧ 100000 <= now s' - startTime
    ∧ last (fetches evs) = Some l
    ∧ allCompleted l = false.
Proof.
  apply (generateSongs_wait_times_out 40 "a calm piano piece" false None None
           (Some false) (Demo.ready (Demo.services "queued"))).
  - lia.
  - vm_compute. reflexivity.
  - exact (services_accept "queued").
  - exact (services_renew "queued").
  - exact services_never_complete.
Defined.

Lemma generateSongs_no_wait_witness :
  ∃ infos songIds s',
    generateSongs 0 "a calm piano piece" false None None (Some false) false
                  (Demo.ready (Demo.services "queued"))
      = (Ok infos, s')
    ∧ songIds = [JStr "a1"; JStr "a2"]
    ∧ length infos = length songIds.
Proof.
  destruct (generateSongs_no_wait 0 "a calm piano piece" false None None
              (Some false) (Demo.ready (Demo.services "queued")) 100 "OK"
              (Demo.obj [("clips", JArr [Demo.clip "a1" "submitted" JUndefined;
                                         Demo.clip "a2" "queued" JUndefined])])
              [Demo.clip "a1" "submitted" JUndefined;
               Demo.clip "a2" "queued" JUndefined])
    as (infos & songIds & s' & renew & reply & pause & Hrun & _ & Hids & Hlen & _).
  - vm_compute. reflexivity.
  - exact (services_renew "queued").
  - vm_compute. reflexivity.
  - vm_compute. reflexivity.
  - vm_compute. reflexivity.
  - repeat constructor.
  - exists infos, songIds, s'. split; [exact Hrun|]. split; [|exact Hlen].
    vm_compute in Hids. congruence.
Defined.

Lemma get_maps_feed_witness :
  ∃ s',
    get (Some [JStr "a1"; JStr "a2"]) (Demo.ready (Demo.services "streaming"))
    = (Ok (record_of normalized_lyric
             <$> [Demo.clip "a2" "streaming" JNull;
                  Demo.clip "a1" "streaming" (JStr Demo.lyrics)]), s')
    ∧ last (trace s')
      = Some (Exchange
                (mkRequest GET "https://studio-api.suno.ai/api/feed/?ids=a1,a2" None
                           (outgoing_headers (Demo.ready (Demo.services "streaming")))
                           (Some 3000))
                (HttpReply 30 200 "OK"
                           (JArr [Demo.clip "a2" "streaming" JNull;
                                  Demo.clip "a1" "streaming" (JStr Demo.lyrics)]))).
Proof.
  eexists. split.
  - apply (get_maps_feed (Some ["a1"; "a2"])
             (Demo.ready (Demo.services "streaming")) 30 200 "OK"
             [Demo.clip "a2" "streaming" JNull;
              Demo.clip "a1" "streaming" (JStr Demo.lyrics)]).
    + vm_compute. reflexivity.
    + vm_compute. reflexivity.
    + vm_compute. reflexivity.
    + repeat constructor.
    + repeat constructor.
  - vm_compute. reflexivity.
Defined.

Lemma keepAlive_without_session_witness :
  keepAlive (Some true) (Demo.fresh (Demo.services "queued"))
  = (Throw (Error "Session ID is not set. Cannot renew token."),
     Demo.fresh (Demo.services "queued")).
Proof.
  apply (keepAlive_without_session (Some true) (Demo.fresh (Demo.services "queued"))).
  vm_compute. reflexivity.
Defined.


(** * Further properties *)

(** ** More on [parseLyrics] *)

Lemma concat_cons_cons sep (x y : string) (l : list string) :
  String.concat sep (x :: y :: l) = x +:+ sep +:+ String.concat sep (y :: l).
Proof. reflexivity. Qed.

Lemma concat_String sep c (h : string) (t : list string) :
  String.concat sep (String c h :: t) = String c (String.concat sep (h :: t)).
Proof. by destruct t. Qed.

(** Joining what [split] cut gives the text back. *)
Lemma concat_split sep s : String.concat (String sep "") (split sep s) = s.
Proof.
  induction s as [|c r IH]; [done|]. simpl split.
  destruct (Ascii.eqb c sep) eqn:E.
  - apply Ascii.eqb_eq in E as ->.
    destruct (split sep r) as [|h t] eqn:Hs; [by apply split_not_nil in Hs|].
    rewrite concat_cons_cons, IH. reflexivity.
  - destruct (split sep r) as [|h t] eqn:Hs; [by apply split_not_nil in Hs|].
    by rewrite concat_String, IH.
Qed.

Lemma not_blank_not_empty line : not_blank line → line ≠ "".
Proof. unfold not_blank. by intros H ->. Qed.

Lemma concat_not_empty sep (h : string) (t : list string) :
  h ≠ "" → String.concat sep (h :: t) ≠ "".
Proof.
  intros Hh. destruct t as [|y t]; [done|]. rewrite concat_cons_cons.
  destruct h; [done|]. discriminate.
Qed.

Lemma length_append (a b : string) :
  String.length (a +:+ b) = (String.length a + String.length b)%nat.
Proof. induction a as [|c a IH]; simpl; [done|]. by rewrite IH. Qed.

Lemma length_concat_cons sep (x : string) (l : list string) :
  (String.length x <= String.length (String.concat sep (x :: l)))%nat.
Proof.
  destruct l as [|y l]; [done|]. rewrite concat_cons_cons, length_append. lia.
Qed.

Lemma length_concat_filter sep (P : string → Prop) `{!∀ x, Decision (P x)}
    (l : list string) :
  (String.length (String.concat sep (filter P l))
   <= String.length (String.concat sep l))%nat.
Proof.
  induction l as [|x l IH]; [done|]. rewrite filter_cons.
  destruct l as [|y l].
  - destruct (decide (P x)); simpl; lia.
  - rewrite (concat_cons_cons sep x y l), !length_append.
    destruct (decide (P x)); [|lia].
    destruct (filter P (y :: l)) as [|z k] eqn:Hf.
    + simpl. lia.
    + rewrite concat_cons_cons, !length_append. lia.
Qed.

(** X1: the lines of [parseLyrics x] are the lines of [x] that are not
    blank, in their order and character for character (a kept line is
    not trimmed); when every line is blank the result is the one empty
    line of the empty text. *)
Theorem parseLyrics_lines (x : string) :
  split LF (parseLyrics x)
  = match filter not_blank (split LF x) with
    | [] => [""]
    | kept => kept
    end.
Proof.
  unfold parseLyrics.
  destruct (filter not_blank (split LF x)) as [|h t] eqn:Hf; [done|].
  unfold newline. apply split_concat; [done|]. rewrite <- Hf.
  apply Forall_filter_sub, split_pieces_clean.
Qed.

(** X2: a text none of whose lines is blank comes out of [parseLyrics]
    as it went in. *)
Theorem parseLyrics_fixes_clean_text (x : string) :
  Forall not_blank (split LF x) → parseLyrics x = x.
Proof.
  intros Hall. unfold parseLyrics, newline.
  rewrite filter_keeps_all by done. apply concat_split.
Qed.

(** X3: [parseLyrics x] is the empty string exactly when every line of
    [x] is blank. *)
Theorem parseLyrics_empty_iff (x : string) :
  parseLyrics x = "" ↔ Forall (λ line, trim line = "") (split LF x).
Proof.
  unfold parseLyrics. split.
  - intros Hempty. apply Forall_forall. intros line Hin.
    destruct (decide (trim line = "")) as [|Hnb]; [done|]. exfalso.
    assert (Hkept : line ∈ filter not_blank (split LF x))
      by (apply list_elem_of_filter; done).
    destruct (filter not_blank (split LF x)) as [|h t] eqn:Hf;
      [by apply not_elem_of_nil in Hkept|].
    revert Hempty. apply concat_not_empty, not_blank_not_empty.
    assert (Hh : h ∈ filter not_blank (split LF x)) by (rewrite Hf; left).
    by apply list_elem_of_filter in Hh as [Hh _].
  - intros Hall.
    assert (Hf : filter not_blank (split LF x) = []).
    { induction Hall as [|line l Hline _ IH]; [done|].
      rewrite filter_cons. destruct (decide (not_blank line)) as [Hnb|]; [|done].
      by destruct Hnb. }
    by rewrite Hf.
Qed.

(** X4: [parseLyrics] never makes a text longer. *)
Theorem parseLyrics_length (x : string) :
  (String.length (parseLyrics x) <= String.length x)%nat.
Proof.
  unfold parseLyrics, newline.
  rewrite <- (concat_split LF x) at 2. apply length_concat_filter.
Qed.

(** ** More on the session *)

(** X5: the handshake when both services answer: [init] stores the
    session id the identity service named, asks for a token at the
    address built from that id, and registers one interceptor holding
    the token it got.  It sends these two requests and nothing else,
    and does not pause. *)
Theorem init_establishes_session s l1 st1 txt1 d1 l2 st2 txt2 d2 :
  let session := Js.peek "last_active_session_id" (Js.peek "response" d1) in
  let ask := mkRequest GET
               "https://clerk.suno.ai/v1/client?_clerk_js_version=4.70.5"
               None (outgoing_headers s) None in
  let renew := mkRequest POST
                 ("https://clerk.suno.ai/v1/client/sessions/"
                  +:+ Js.to_string session
                  +:+ "/tokens/api?_clerk_js_version=4.70.0")
                 None (outgoing_headers s) None in
  server s (trace s) ask = HttpReply l1 st1 txt1 d1 →
  ok_status st1 = true →
  Js.nullish d1 = false →
  Js.nullish (Js.peek "response" d1) = false →
  Js.truthy session = true →
  server s (trace s ++ [Exchange ask (HttpReply l1 st1 txt1 d1)]) renew
    = HttpReply l2 st2 txt2 d2 →
  ok_status st2 = true →
  Js.nullish d2 = false →
  init s
  = (Ok (),
     mkState session (defaults s)
             (interceptors s ++ [SetBearer (Js.peek "jwt" d2)])
             (now s + Z.of_N l1 + Z.of_N l2)
             (trace s ++ [Exchange ask (HttpReply l1 st1 txt1 d1);
                          Exchange renew (HttpReply l2 st2 txt2 d2)])
             (server s) (random s)).
Proof.
  intros session ask renew Hrep1 Hst1 Hd1 Hr1 Hsid Hrep2 Hst2 Hd2.
  unfold init, getAuthToken, client_get.
  change (CLERK_BASE_URL +:+ "/v1/client?_clerk_js_version=4.70.5")
    with "https://clerk.suno.ai/v1/client?_clerk_js_version=4.70.5".
  pose proof (client_request_Ok GET _ None None s _ _ _ _ Hrep1 eq_refl Hst1) as Hget.
  fold ask in Hget.
  unfold mbind at 1, M_bind. rewrite (bind_Ok _ _ _ _ _ Hget). cbn [data].
  unfold Js.prop at 1 2. rewrite Hd1, bind_lift_Ok, Hr1, bind_lift_Ok.
  fold session. rewrite Hsid. cbn [negb]. cbn [set_sid].
  unfold keepAlive. rewrite bind_gets. cbn [sid]. rewrite Hsid. cbn [negb].
  unfold client_post.
  match goal with
  | |- context [client_request POST ?u None None] =>
      change u with (req_url renew)
  end.
  match goal with
  | |- (_ ≫= _) ?s1 = _ =>
      pose proof (client_request_Ok POST (req_url renew) None None s1
                    l2 st2 txt2 d2 Hrep2 eq_refl Hst2) as Hpost
  end.
  rewrite (bind_Ok _ _ _ _ _ Hpost). cbn [default data].
  unfold Js.prop. rewrite Hd2.
  unfold mbind, M_bind, mret, M_ret, lift, use_interceptor, advance.
  cbn [sid defaults interceptors now trace server random].
  rewrite <- app_assoc. reflexivity.
Qed.

(** X6: a renewal that the identity service answers registers one more
    interceptor, holding whatever the answer has under [jwt]
    ([undefined] when the answer has none), behind the interceptors
    already registered, which all stay.  The session id is kept; the one
    request is followed by a pause of one to two seconds when [isWait]
    is true and by nothing otherwise. *)
Theorem keepAlive_registers_interceptor isWait s latency st txt d :
  let renew := mkRequest POST
                 ("https://clerk.suno.ai/v1/client/sessions/"
                  +:+ Js.to_string (sid s)
                  +:+ "/tokens/api?_clerk_js_version=4.70.0")
                 None (outgoing_headers s) None in
  Js.truthy (sid s) = true →
  server s (trace s) renew = HttpReply latency st txt d →
  ok_status st = true →
  Js.nullish d = false →
  ∃ s' pause,
    keepAlive isWait s = (Ok (), s')
    ∧ interceptors s' = interceptors s ++ [SetBearer (Js.peek "jwt" d)]
    ∧ sid s' = sid s
    ∧ trace s' = trace s ++ Exchange renew (HttpReply latency st txt d)
                            :: (if default false isWait then [Slept pause] else [])
    ∧ 1000 <= pause <= 2000
    ∧ now s' = now s + Z.of_N latency
               + (if default false isWait then pause else 0).
Proof.
  intros renew Hsid Hrep Hst Hd. unfold keepAlive.
  rewrite bind_gets, Hsid. cbn [negb]. unfold client_post.
  match goal with
  | |- context [client_request POST ?u None None] => change u with (req_url renew)
  end.
  rewrite (bind_Ok _ _ _ _ _
             (client_request_Ok POST (req_url renew) None None s _ _ _ _
                Hrep eq_refl Hst)).
  cbn [data]. unfold Js.prop. rewrite Hd.
  set (s1 := advance _ _ s).
  exists (snd (((if default false isWait then sleep 1 2 else mret ()) ;;
                lift (Ok (Js.peek "jwt" d)) ≫= λ newToken,
                use_interceptor (SetBearer newToken)) s1)),
    (Z.max (1000 * 1) (Z.min (1000 * 2) (random s1 (trace s1)))).
  destruct (default false isWait);
    repeat split; try reflexivity; try lia.
  all: cbv [mbind M_bind sleep lift use_interceptor mret M_ret snd fst advance
              trace now sid interceptors defaults server random s1].
  all: try (by rewrite <- app_assoc); lia.
Qed.

(** X7: what [getAuthToken] makes of an answer that holds a client
    object: a truthy [last_active_session_id] is stored as the session
    id; any falsy one (missing, [null], the empty string, zero, [false])
    is rejected with the error "Failed to get session id" and the
    session id is left as it was.  Either way one request is sent. *)
Theorem getAuthToken_stores_or_rejects s latency st txt d :
  let session := Js.peek "last_active_session_id" (Js.peek "response" d) in
  let ask := mkRequest GET
               "https://clerk.suno.ai/v1/client?_clerk_js_version=4.70.5"
               None (outgoing_headers s) None in
  let s1 := advance (Z.of_N latency) (Exchange ask (HttpReply latency st txt d)) s in
  server s (trace s) ask = HttpReply latency st txt d →
  ok_status st = true →
  Js.nullish d = false →
  Js.nullish (Js.peek "response" d) = false →
  getAuthToken s
  = if Js.truthy session
    then (Ok (), mkState session (defaults s1) (interceptors s1) (now s1)
                         (trace s1) (server s1) (random s1))
    else (Throw (Error "Failed to get session id"), s1).
Proof.
  intros session ask s1 Hrep Hst Hd Hr. unfold getAuthToken, client_get.
  change (CLERK_BASE_URL +:+ "/v1/client?_clerk_js_version=4.70.5")
    with "https://clerk.suno.ai/v1/client?_clerk_js_version=4.70.5".
  rewrite (bind_Ok _ _ _ _ _
             (client_request_Ok GET _ None None s _ _ _ _ Hrep eq_refl Hst)).
  cbn [data]. unfold Js.prop. rewrite Hd, bind_lift_Ok, Hr, bind_lift_Ok.
  fold session. by destruct (Js.truthy session).
Qed.

(** ** More on submissions and fetches *)

(** X8: a submission answered in time with any status but 200 yields no
    list, waiting or not: a status outside 200..299 is the rejection of
    axios, and a status inside it other than 200 is the error "Error
    response:" followed by the status text.  The submission is the only
    request sent: no renewal, no pause and no fetch follow. *)
Theorem generateSongs_rejects_other_status
    fuel prompt isCustom tags title make_instrumental wait_audio s
    latency st txt d :
  let req := mkRequest POST "https://studio-api.suno.ai/api/generate/v2/"
               (Some (generateSongs_payload prompt isCustom tags title
                                            make_instrumental))
               (outgoing_headers s) (Some 10000) in
  server s (trace s) req = HttpReply latency st txt d →
  timed_out (Some 10000) latency = false →
  st ≠ 200 →
  generateSongs fuel prompt isCustom tags title make_instrumental wait_audio s
  = (Throw (if ok_status st then Error ("Error response:" +:+ txt)
            else AxiosError (EBadStatus st)),
     advance (Z.of_N latency) (Exchange req (HttpReply latency st txt d)) s).
Proof.
  intros req Hrep Hto Hst. unfold generateSongs, client_post.
  change (BASE_URL +:+ "/api/generate/v2/")
    with "https://studio-api.suno.ai/api/generate/v2/".
  destruct (ok_status st) eqn:Hok.
  - rewrite (bind_Ok _ _ _ _ _
               (client_request_Ok POST _ _ (Some 10000) s _ _ _ _ Hrep Hto Hok)).
    cbn [status statusText]. apply Z.eqb_neq in Hst. by rewrite Hst.
  - apply bind_Throw. unfold client_request. fold req.
    by rewrite Hrep, Hto, Hok.
Qed.

Lemma mapM_Ok_inv {A B} (f : A → Res B) (l : list A) k :
  mapM f l = Ok k → Forall (λ x, ∃ y, f x = Ok y) l.
Proof.
  revert k. induction l as [|x l IH]; intros k; [constructor|].
  simpl. destruct (f x) as [y| |] eqn:Hx; [|done..]. simpl.
  destruct (mapM f l) as [k'| |]; [|done..]. intros _.
  constructor; [by exists y | by apply (IH k')].
Qed.

Lemma mapM_Throw_inv {A B} (f : A → Res B) (l : list A) e :
  mapM f l = Throw e → ∃ x, x ∈ l ∧ f x = Throw e.
Proof.
  induction l as [|x l IH]; [done|].
  simpl. destruct (f x) as [y| |] eqn:Hx; simpl.
  - destruct (mapM f l) as [k'| |]; [done| |done].
    intros [= ->]. destruct IH as (x' & Hin & Hx'); [done|].
    exists x'. split; [by right | done].
  - intros [= ->]. exists x. split; [by left | done].
  - done.
Qed.

Lemma audio_info_feed_inv a :
  (∀ r, audio_info feed_lyric a = Ok r → has_metadata a ∧ prompt_is_text a)
  ∧ (∀ e, audio_info feed_lyric a = Throw e → e = TypeError).
Proof.
  unfold audio_info, Js.prop, has_metadata, prompt_is_text.
  destruct (Js.nullish a); [split; [done | by intros e [= <-]]|].
  cbn [mbind Res_bind].
  destruct (Js.nullish (Js.peek "metadata" a)); [split; [done | by intros e [= <-]]|].
  cbn [mbind Res_bind]. unfold feed_lyric.
  destruct (Js.peek "prompt" (Js.peek "metadata" a)) as [| |b|n|p|l|m];
    cbn [Js.truthy].
  all: try (destruct b).
  all: try (destruct (negb (n =? 0)) eqn:Hn).
  all: try (destruct (negb (String.eqb p "")) eqn:Hp).
  all: cbn [mbind Res_bind].
  all: split; [|try done; try (by intros e [= <-])].
  all: try done.
Qed.

(** X9: [get] maps all entries or none: when the feed answers in time
    with an array in which some entry has no metadata, or a raw prompt
    that is truthy and not a string, the whole call throws a
    [TypeError], whatever the other entries are; the well-formed ones
    are not returned. *)
Theorem get_bad_entry_throws songIds s latency st txt (audios : list JsVal) bad :
  let req := mkRequest GET (feed_url songIds) None (outgoing_headers s) (Some 3000) in
  server s (trace s) req = HttpReply latency st txt (JArr audios) →
  timed_out (Some 3000) latency = false →
  ok_status st = true →
  bad ∈ audios →
  ¬ (has_metadata bad ∧ prompt_is_text bad) →
  get songIds s
  = (Throw TypeError,
     advance (Z.of_N latency)
             (Exchange req (HttpReply latency st txt (JArr audios))) s).
Proof.
  intros req Hrep Hto Hst Hin Hbad. unfold get, client_get.
  rewrite (bind_Ok _ _ _ _ _
             (client_request_Ok GET _ None (Some 3000) s _ _ _ _ Hrep Hto Hst)).
  cbn [data js_map]. unfold lift. f_equal.
  destruct (mapM (audio_info feed_lyric) audios) as [k|e|] eqn:Hmap.
  - exfalso. apply mapM_Ok_inv in Hmap.
    rewrite Forall_forall in Hmap. destruct (Hmap bad Hin) as [r Hr].
    by apply audio_info_feed_inv in Hr.
  - apply mapM_Throw_inv in Hmap as (x & _ & Hx).
    apply audio_info_feed_inv in Hx. by subst e.
  - exfalso. revert Hmap. apply mapM_ends. intros x.
    apply audio_info_ends, feed_lyric_ends.
Qed.

(** X10: [get_credits] asks the billing endpoint once, with no timeout,
    and renames the four fields of the answer; a field the answer
    leaves out comes back as [undefined], without an error. *)
Theorem get_credits_maps_billing s latency st txt d :
  let req := mkRequest GET "https://studio-api.suno.ai/api/billing/info/"
               None (outgoing_headers s) None in
  server s (trace s) req = HttpReply latency st txt d →
  ok_status st = true →
  Js.nullish d = false →
  get_credits s
  = (Ok {[ "credits_left" := Js.peek "total_credits_left" d;
           "period" := Js.peek "period" d;
           "monthly_limit" := Js.peek "monthly_limit" d;
           "monthly_usage" := Js.peek "monthly_usage" d ]},
     advance (Z.of_N latency) (Exchange req (HttpReply latency st txt d)) s).
Proof.
  intros req Hrep Hst Hd. unfold get_credits, client_get.
  change (BASE_URL +:+ "/api/billing/info/")
    with "https://studio-api.suno.ai/api/billing/info/".
  rewrite (bind_Ok _ _ _ _ _
             (client_request_Ok GET _ None None s _ _ _ _ Hrep eq_refl Hst)).
  cbn [data]. unfold Js.prop. rewrite Hd, !bind_lift_Ok.
  reflexivity.
Qed.

(** ** Requests in the trace *)

Lemma bind_OutOfFuel {A B} (m : M A) (f : A → M B) s s' :
  m s = (OutOfFuel, s') → (m ≫= f) s = (OutOfFuel, s').
Proof. intros H. unfold mbind, M_bind. by rewrite H. Qed.

Lemma requests_app evs1 evs2 : requests (evs1 ++ evs2) = requests evs1 ++ requests evs2.
Proof. apply omap_app. Qed.

Lemma gets_sent_app evs1 evs2 :
  gets_sent (evs1 ++ evs2) = gets_sent evs1 ++ gets_sent evs2.
Proof. unfold gets_sent. by rewrite requests_app, filter_app. Qed.

Lemma gets_sent_posts evs :
  Forall (λ req, req_method req = POST) (requests evs) → gets_sent evs = [].
Proof.
  unfold gets_sent. induction 1 as [|req l Hreq _ IH]; [done|].
  rewrite filter_cons. destruct (decide (req_method req = GET)); [congruence|done].
Qed.

Lemma fetches_posts evs :
  Forall (λ req, req_method req = POST) (requests evs) → fetches evs = [].
Proof.
  induction evs as [|[req rep|d] evs IH]; intros Hall; [done|..].
  - inversion Hall; subst. rewrite fetches_post by done. by apply IH.
  - rewrite fetches_slept. by apply IH.
Qed.

(** Every outcome of [keepAlive]: at most one request, a [POST] with the
    headers the client sends when the call starts, and at most one more
    interceptor. *)
Lemma keepAlive_run_full isWait s :
  ∃ evs,
    later s (snd (keepAlive isWait s)) evs
    ∧ Forall (λ req, req_method req = POST
                     ∧ req_headers req = outgoing_headers s) (requests evs)
    ∧ (length (requests evs) <= 1)%nat
    ∧ (length (interceptors (snd (keepAlive isWait s)))
       <= S (length (interceptors s)))%nat.
Proof.
  unfold keepAlive. rewrite bind_gets.
  destruct (negb (Js.truthy (sid s))).
  { exists []. split; [apply later_refl|]. split; [constructor|]. simpl. lia. }
  set (url := CLERK_BASE_URL +:+ _).
  destruct (client_request_later POST url None None s) as (rep & L1 & Hi & _).
  unfold client_post.
  destruct (client_request POST url None None s) as [[resp|e|] s1] eqn:Hpost;
    cbn [snd] in L1, Hi;
    [rewrite (bind_Ok _ _ _ _ _ Hpost)
    |rewrite (bind_Throw _ _ _ _ _ Hpost)
    |rewrite (bind_OutOfFuel _ _ _ _ Hpost)].
  - match goal with |- context [(?m ≫= ?k) s1] => set (tail := m ≫= k) end.
    assert (Htail : ∃ evs2, later s1 (snd (tail s1)) evs2 ∧ requests evs2 = []
                            ∧ (length (interceptors (snd (tail s1)))
                               <= S (length (interceptors s1)))%nat).
    { unfold tail. destruct (default false isWait).
      - destruct (sleep_spec 1 2 s1) as (d & Hsl & Hd).
        rewrite (bind_Ok _ _ _ _ _ Hsl). exists [Slept d].
        assert (L : later s1 (advance d (Slept d) s1) [Slept d])
          by (apply later_advance; lia).
        destruct (Js.prop "jwt" (data resp)) as [t|e|];
          [|split; [exact L|]; split; [done | simpl; lia]..].
        rewrite bind_lift_Ok.
        pose proof (later_trans _ _ _ _ _ L (later_use_interceptor _ (SetBearer t))) as L'.
        rewrite app_nil_r in L'. split; [exact L'|]. split; [done|].
        simpl. rewrite length_app. simpl. lia.
      - exists [].
        change ((mret () ;; lift (Js.prop "jwt" (data resp))
                 ≫= λ newToken, use_interceptor (SetBearer newToken)) s1)
          with ((lift (Js.prop "jwt" (data resp))
                 ≫= λ newToken, use_interceptor (SetBearer newToken)) s1).
        destruct (Js.prop "jwt" (data resp)) as [t|e|];
          [|split; [apply later_refl|]; split; [done | simpl; lia]..].
        rewrite bind_lift_Ok. split; [apply later_use_interceptor|].
        split; [done|]. simpl. rewrite length_app. simpl. lia. }
    destruct Htail as (evs2 & L2 & Hreq & Hlen).
    eexists. split; [exact (later_trans _ _ _ _ _ L1 L2)|].
    rewrite requests_app, Hreq. simpl.
    split; [by repeat constructor|]. split; [lia|]. by rewrite <- Hi.
  - eexists. split; [exact L1|]. simpl.
    split; [by repeat constructor|]. split; [lia|]. rewrite Hi. lia.
  - eexists. split; [exact L1|]. simpl.
    split; [by repeat constructor|]. split; [lia|]. rewrite Hi. lia.
Qed.

Lemma keepAlive_run isWait s :
  ∃ evs,
    later s (snd (keepAlive isWait s)) evs
    ∧ Forall (λ req, req_method req = POST) (requests evs)
    ∧ (length (requests evs) <= 1)%nat.
Proof.
  destruct (keepAlive_run_full isWait s) as (evs & L & Hall & Hlen & _).
  exists evs. split; [done|]. split; [|done].
  eapply Forall_impl; [exact Hall|]. by intros req [? _].
Qed.

(** Every outcome of [get]: one request, and a list only when the reply
    yields it. *)
Lemma get_run songIds s :
  let req := mkRequest GET (feed_url songIds) None (outgoing_headers s) (Some 3000) in
  later s (snd (get songIds s)) [Exchange req (server s (trace s) req)]
  ∧ (∀ l, fst (get songIds s) = Ok l → fetched (server s (trace s) req) = Some l).
Proof.
  intros req. subst req.
  unfold get, client_get, client_request, mbind, M_bind, fetched. cbv zeta.
  destruct (server s (trace s) _) as [lat st txt d|lat].
  - destruct (timed_out (Some 3000) lat) eqn:Hto.
    { split; [apply later_advance; simpl; lia | done]. }
    cbn [negb andb]. destruct (ok_status st).
    + split; [apply later_advance; lia|]. cbn [data lift fst].
      intros l ->. done.
    + split; [apply later_advance; lia | done].
  - destruct (timed_out (Some 3000) lat).
    + split; [apply later_advance; simpl; lia | done].
    + split; [apply later_advance; lia | done].
Qed.

(** Every outcome of the polling loop, whatever the services do. *)
Lemma poll_run songIds startTime fuel : ∀ lastResponse s,
  ∃ evs,
    later s (snd (poll fuel songIds startTime lastResponse s)) evs
    ∧ polls_for songIds startTime (now s) evs
    ∧ (length (requests evs) <= 2 * length (gets_sent evs))%nat
    ∧ (fuel ≠ 0%nat → now s - startTime < 100000 → gets_sent evs ≠ [])
    ∧ (∀ l, fst (poll fuel songIds startTime lastResponse s) = Ok l →
         l = default lastResponse (last (fetches evs))
         ∧ (now s - startTime < 100000 → fetches evs ≠ [])).
Proof.
  induction fuel as [|fuel IH]; intros lastResponse s.
  { exists []. split; [apply later_refl|]. split; [split; [constructor | by left]|].
    split; [simpl; lia|]. split; [done|]. intros l [=]. }
  rewrite poll_unfold.
  destruct (now s - startTime <? 100000) eqn:Hin.
  2:{ apply Z.ltb_ge in Hin. exists []. split; [apply later_refl|].
      split; [split; [constructor | by left]|]. split; [simpl; lia|].
      split; [intros _ ?; lia|]. intros l [= <-]. split; [done | intros ?; lia]. }
  apply Z.ltb_lt in Hin.
  destruct (get_run (Some songIds) s) as [L1 Hf]. cbv zeta in L1, Hf.
  set (req := mkRequest GET (feed_url (Some songIds)) None (outgoing_headers s)
                        (Some 3000)) in *.
  set (rep := server s (trace s) req) in *.
  assert (Hone : polls_for songIds startTime (now s) [Exchange req rep]).
  { split; [by repeat constructor|]. right. simpl. lia. }
  destruct (get (Some songIds) s) as [[response|e|] s1] eqn:Hget;
    cbn [fst snd] in L1, Hf;
    [rewrite (bind_Ok _ _ _ _ _ Hget)
    |rewrite (bind_Throw _ _ _ _ _ Hget)
    |rewrite (bind_OutOfFuel _ _ _ _ Hget)].
  2,3: exists [Exchange req rep]; split; [exact L1|]; split; [exact Hone|];
       split; [simpl; lia|]; split; [done|]; intros l [=].
  specialize (Hf response eq_refl).
  assert (Hfet : fetches [Exchange req rep] = [response])
    by (apply fetches_fetch; [apply feed_url_is_fetch | done]).
  destruct (allCompleted response).
  { exists [Exchange req rep]. split; [exact L1|]. split; [exact Hone|].
    split; [simpl; lia|]. split; [done|].
    intros l Hl. cbn in Hl. injection Hl as <-. rewrite Hfet. done. }
  destruct (sleep_spec 3 6 s1) as (d & Hsl & Hd).
  rewrite (bind_Ok _ _ _ _ _ Hsl).
  set (s2 := advance d (Slept d) s1).
  assert (L2 : later s1 s2 [Slept d]) by (apply later_advance; lia).
  destruct (keepAlive_run (Some true) s2) as (evs3 & L3 & Hpost & Hlen).
  pose proof (later_trans _ _ _ _ _ (later_trans _ _ _ _ _ L1 L2) L3) as L123.
  set (pre := ([Exchange req rep] ++ [Slept d]) ++ evs3) in *.
  assert (Hg : gets_sent pre = [req]).
  { unfold pre. rewrite !gets_sent_app, (gets_sent_posts evs3) by done. done. }
  assert (Hfp : fetches pre = [response]).
  { unfold pre. rewrite !fetches_app, Hfet, (fetches_posts evs3) by done. done. }
  assert (Hrp : (length (requests pre) <= 2)%nat).
  { unfold pre. rewrite !requests_app, !length_app. simpl. lia. }
  assert (Hpre : polls_for songIds startTime (now s) pre).
  { split; [rewrite Hg; by repeat constructor|]. right. rewrite Hg. simpl. lia. }
  assert (Hnow : now s + 3000 <= now (snd (keepAlive (Some true) s2))).
  { pose proof (later_now _ _ _ L1). pose proof (later_now _ _ _ L3).
    subst s2. simpl in *. lia. }
  destruct (keepAlive (Some true) s2) as [[[]|e|] s3] eqn:Hka;
    cbn [snd] in L123, Hnow;
    [rewrite (bind_Ok _ _ _ _ _ Hka)
    |rewrite (bind_Throw _ _ _ _ _ Hka)
    |rewrite (bind_OutOfFuel _ _ _ _ Hka)].
  2,3: exists pre; split; [exact L123|]; split; [exact Hpre|];
       split; [rewrite Hg; simpl; lia|]; split; [by rewrite Hg|]; intros l [=].
  destruct (IH response s3) as (evs' & L' & [Hurls Hcount] & Hreqs & _ & Hres).
  exists (pre ++ evs'). split; [exact (later_trans _ _ _ _ _ L123 L')|].
  clearbody pre. unfold polls_for.
  rewrite !gets_sent_app, requests_app, fetches_app, Hg, Hfp, !length_app.
  cbn [app length].
  split; [split|].
  - constructor; [done | exact Hurls].
  - right. destruct Hcount as [->|Hcount]; [simpl; lia|]. lia.
  - split; [lia|]. split; [done|].
    intros l Hl. destruct (Hres l Hl) as [-> _].
    split; [by rewrite last_cons_default | done].
Qed.

(** How a run of [generateSongs] goes, whatever the services do: the
    submission is sent; then either the run stops there without a list,
    or the submission was accepted with a list of clips and the run goes
    on as the polling loop or as the renewal and the mapping. *)
Lemma generateSongs_cases
    fuel prompt isCustom tags title make_instrumental wait_audio s :
  let req := mkRequest POST "https://studio-api.suno.ai/api/generate/v2/"
               (Some (generateSongs_payload prompt isCustom tags title
                                            make_instrumental))
               (outgoing_headers s) (Some 10000) in
  let rep := server s (trace s) req in
  let run := generateSongs fuel prompt isCustom tags title make_instrumental
                           wait_audio s in
  ∃ s1,
    later s s1 [Exchange req rep]
    ∧ interceptors s1 = interceptors s
    ∧ ((snd run = s1 ∧ ∀ l, fst run ≠ Ok l)
       ∨ ∃ latency txt d clips songIds,
           rep = HttpReply latency 200 txt d
           ∧ timed_out (Some 10000) latency = false
           ∧ Js.prop "clips" d = Ok clips
           ∧ js_map (Js.prop "id") clips = Ok songIds
           ∧ run = if wait_audio
                   then poll fuel songIds (now s1) []
                             (advance 5000 (Slept 5000) s1)
                   else (keepAlive (Some true) ;;
                         clips ← lift (Js.prop "clips" d);
                         lift (js_map (audio_info Ok) clips)) s1).
Proof.
  intros req rep run. subst run. unfold generateSongs, client_post.
  change (BASE_URL +:+ "/api/generate/v2/")
    with "https://studio-api.suno.ai/api/generate/v2/".
  set (payload := generateSongs_payload _ _ _ _ _) in *.
  destruct (client_request_later POST "https://studio-api.suno.ai/api/generate/v2/"
              (Some payload) (Some 10000) s) as (rep' & L1 & Hi & _).
  assert (Hrep' : rep' = rep).
  { destruct L1 as [_ _ _ _ _ Htr]. revert Htr. unfold client_request. fold req rep.
    destruct (timed_out _ _); [|destruct rep as [? st ? ?|?]; [destruct (ok_status st)|]];
      simpl; intros Htr; apply app_inv_head in Htr; congruence. }
  subst rep'.
  destruct (client_request POST _ (Some payload) (Some 10000) s)
    as [[response|e|] s1] eqn:Hpost; cbn [snd] in L1, Hi.
  2:{ exists s1. rewrite (bind_Throw _ _ _ _ _ Hpost). split; [done|]. split; [done|].
      left. split; [done | by intros l]. }
  2:{ exists s1. rewrite (bind_OutOfFuel _ _ _ _ Hpost). split; [done|]. split; [done|].
      left. split; [done | by intros l]. }
  exists s1. split; [done|]. split; [done|].
  rewrite (bind_Ok _ _ _ _ _ Hpost).
  assert (Hresp : ∃ latency, rep = HttpReply latency (status response)
                                      (statusText response) (data response)
                             ∧ timed_out (Some 10000) latency = false).
  { revert Hpost. unfold client_request. fold req rep.
    destruct rep as [lat st txt d|lat].
    - destruct (timed_out (Some 10000) lat) eqn:Hto; [done|].
      destruct (ok_status st); [|done]. intros [= <- _]. by exists lat.
    - by destruct (timed_out (Some 10000) lat). }
  destruct Hresp as (lat & Hrep & Hto).
  destruct (Z.eqb_spec (status response) 200) as [H200|Hne]; cbn [negb].
  2:{ left. split; [reflexivity | intros l Hl; discriminate Hl]. }
  destruct (Js.prop "clips" (data response)) as [clips|e|] eqn:Hclips.
  2,3: left; split; [reflexivity | intros l Hl; discriminate Hl].
  rewrite bind_lift_Ok.
  destruct (js_map (Js.prop "id") clips) as [songIds|e|] eqn:Hids.
  2,3: left; split; [reflexivity | intros l Hl; discriminate Hl].
  rewrite bind_lift_Ok. right.
  exists lat, (statusText response), (data response), clips, songIds.
  rewrite <- H200. split; [exact Hrep|]. split; [exact Hto|].
  split; [exact Hclips|]. split; [exact Hids|].
  destruct wait_audio; [|by rewrite Hclips].
  rewrite bind_gets. by rewrite (bind_Ok _ _ _ _ _ (sleep_fixed 5 s1)).
Qed.

Lemma gets_sent_post req rep evs :
  req_method req = POST → gets_sent (Exchange req rep :: evs) = gets_sent evs.
Proof.
  intros Hm. unfold gets_sent.
  change (requests (Exchange req rep :: evs)) with (req :: requests evs).
  rewrite filter_cons.
  destruct (decide (req_method req = GET)); [congruence | done].
Qed.

Lemma snd_keepAlive_then_map (x : Res JsVal) (f : JsVal → Res (list AudioInfo.t)) s :
  snd ((keepAlive (Some true) ;; clips ← lift x; lift (f clips)) s)
  = snd (keepAlive (Some true) s).
Proof.
  destruct (keepAlive (Some true) s) as [[[]|e|] s3] eqn:Hka.
  - rewrite (bind_Ok _ _ _ _ _ Hka). by destruct x.
  - by rewrite (bind_Throw _ _ _ _ _ Hka).
  - by rewrite (bind_OutOfFuel _ _ _ _ Hka).
Qed.

(** X11: the traffic of one [generateSongs] call is bounded, whatever
    the services answer and whatever the step budget: a call that waits
    sends at most 32 requests to the feed and at most 65 requests in
    all; a call that does not wait sends none to the feed and at most
    two in all (the submission and one renewal). *)
Theorem generateSongs_traffic_bound
    fuel prompt isCustom tags title make_instrumental wait_audio s :
  ∃ evs,
    trace (snd (generateSongs fuel prompt isCustom tags title make_instrumental
                              wait_audio s))
    = trace s ++ evs
    ∧ (length (gets_sent evs) <= if wait_audio then 32 else 0)%nat
    ∧ (length (requests evs) <= if wait_audio then 65 else 2)%nat.
Proof.
  destruct (generateSongs_cases fuel prompt isCustom tags title make_instrumental
              wait_audio s) as (s1 & L1 & _ & Hcases).
  cbv zeta in L1, Hcases.
  set (req := mkRequest POST _ _ _ _) in *.
  set (rep := server s (trace s) req) in *.
  assert (Hg : ∀ evs, gets_sent (Exchange req rep :: evs) = gets_sent evs)
    by (intros; by apply gets_sent_post).
  assert (Hr : ∀ evs, requests (Exchange req rep :: evs) = req :: requests evs)
    by done.
  clearbody req rep.
  destruct Hcases as [[-> _] | (lat & txt & d & clips & ids & _ & _ & _ & _ & ->)].
  { exists [Exchange req rep]. split; [exact (later_trace _ _ _ L1)|].
    rewrite Hg, Hr. destruct wait_audio; simpl; lia. }
  destruct wait_audio.
  - destruct (poll_run ids (now s1) fuel [] (advance 5000 (Slept 5000) s1))
      as (evs & L & [_ Hcount] & Hreqs & _).
    assert (L2 : later s1 (advance 5000 (Slept 5000) s1) [Slept 5000])
      by (apply later_advance; lia).
    exists (Exchange req rep :: Slept 5000 :: evs).
    split; [exact (later_trace _ _ _ (later_trans _ _ _ _ _
                                        (later_trans _ _ _ _ _ L1 L2) L))|].
    rewrite Hg, Hr.
    change (gets_sent (Slept 5000 :: evs)) with (gets_sent evs).
    change (requests (Slept 5000 :: evs)) with (requests evs).
    cbn [length]. cbn [advance now] in Hcount.
    destruct Hcount as [Hnil|Hcount]; [rewrite Hnil in *; simpl in *; lia | lia].
  - rewrite snd_keepAlive_then_map.
    destruct (keepAlive_run (Some true) s1) as (evs & L & Hpost & Hlen).
    exists (Exchange req rep :: evs).
    split; [exact (later_trace _ _ _ (later_trans _ _ _ _ _ L1 L))|].
    rewrite Hg, Hr, (gets_sent_posts evs) by done.
    simpl. lia.
Qed.

(** X12: whenever a [generateSongs] call that waits returns a list, that
    list is what the last fetch of the run returned: never the clips of
    the submission response, and never the initial empty list. *)
Theorem generateSongs_wait_returns_last_fetch
    fuel prompt isCustom tags title make_instrumental s l s' :
  generateSongs fuel prompt isCustom tags title make_instrumental true s
    = (Ok l, s') →
  ∃ evs, trace s' = trace s ++ evs ∧ last (fetches evs) = Some l.
Proof.
  intros Hrun.
  destruct (generateSongs_cases fuel prompt isCustom tags title make_instrumental
              true s) as (s1 & L1 & _ & Hcases).
  cbv zeta in L1, Hcases.
  set (req := mkRequest POST _ _ _ _) in *.
  set (rep := server s (trace s) req) in *.
  assert (Hf : ∀ evs, fetches (Exchange req rep :: evs) = fetches evs)
    by (intros; by apply fetches_post).
  clearbody req rep.
  destruct Hcases as [[_ Hno] | (lat & txt & d & clips & ids & _ & _ & _ & _ & Heq)].
  { exfalso. apply (Hno l). by rewrite Hrun. }
  rewrite Hrun in Heq.
  destruct (poll_run ids (now s1) fuel [] (advance 5000 (Slept 5000) s1))
    as (evs & L & _ & _ & _ & Hres).
  rewrite <- Heq in L, Hres. cbn [fst snd] in L, Hres.
  destruct (Hres l eq_refl) as [Hl Hne].
  assert (L2 : later s1 (advance 5000 (Slept 5000) s1) [Slept 5000])
    by (apply later_advance; lia).
  exists (Exchange req rep :: Slept 5000 :: evs).
  split; [exact (later_trace _ _ _ (later_trans _ _ _ _ _
                                      (later_trans _ _ _ _ _ L1 L2) L))|].
  rewrite Hf, fetches_slept. specialize (Hne ltac:(simpl; lia)).
  destruct (fetches evs) as [|x F]; [done|].
  rewrite last_cons_Some. f_equal. rewrite Hl. by rewrite last_cons_default.
Qed.

(** X13: once a submission that waits has been accepted, every request
    the run sends to the feed asks for exactly the ids of the clips in
    the submission response, joined by commas in the order of that
    response, with the three-second timeout; with any step budget at all
    there is at least one such request, after the pause of five seconds
    that follows the submission. *)
Theorem generateSongs_polls_submitted_ids
    fuel prompt isCustom tags title make_instrumental s latency txt d clips
    songIds :
  let req := mkRequest POST "https://studio-api.suno.ai/api/generate/v2/"
               (Some (generateSongs_payload prompt isCustom tags title
                                            make_instrumental))
               (outgoing_headers s) (Some 10000) in
  server s (trace s) req = HttpReply latency 200 txt d →
  timed_out (Some 10000) latency = false →
  Js.prop "clips" d = Ok clips →
  js_map (Js.prop "id") clips = Ok songIds →
  fuel ≠ 0%nat →
  ∃ evs,
    trace (snd (generateSongs fuel prompt isCustom tags title make_instrumental
                              true s))
    = trace s ++ Exchange req (HttpReply latency 200 txt d) :: Slept 5000 :: evs
    ∧ gets_sent evs ≠ []
    ∧ Forall (λ r, req_url r
                   = "https://studio-api.suno.ai/api/feed/?ids="
                     +:+ Js.join "," songIds
                   ∧ req_timeout r = Some 3000) (gets_sent evs).
Proof.
  intros req Hrep Hto Hclips Hids Hfuel.
  pose proof (client_request_Ok POST _ _ (Some 10000) s _ 200 _ _ Hrep Hto eq_refl)
    as Hpost.
  fold req in Hpost. set (s1 := advance _ _ s) in Hpost.
  unfold generateSongs, client_post.
  change (BASE_URL +:+ "/api/generate/v2/")
    with "https://studio-api.suno.ai/api/generate/v2/".
  rewrite (bind_Ok _ _ _ _ _ Hpost).
  cbn [status data statusText]. change (negb (200 =? 200)) with false. cbv iota.
  rewrite Hclips, bind_lift_Ok, Hids, bind_lift_Ok, bind_gets.
  rewrite (bind_Ok _ _ _ _ _ (sleep_fixed 5 s1)).
  destruct (poll_run songIds (now s1) fuel [] (advance (1000 * 5) (Slept (1000 * 5)) s1))
    as (evs & L & [Hurls _] & _ & Hne & _).
  exists evs. split.
  - rewrite (later_trace _ _ _ L). subst s1. cbn [advance trace].
    by rewrite <- !app_assoc.
  - split; [apply Hne; [done | simpl; lia] | exact Hurls].
Qed.

(** ** The headers of every request *)
















(** ** The handshake of a new client *)



(** X17: a fetch never holds the caller for more than its timeout:
    whatever the feed does, when [get] ends the clock has moved on by
    three seconds at most, and one request has been sent. *)
Theorem get_within_three_seconds songIds s :
  now s <= now (snd (get songIds s)) <= now s + 3000
  ∧ length (requests (trace (snd (get songIds s))))
    = S (length (requests (trace s))).
Proof.
  unfold get, client_get, client_request, mbind, M_bind. cbv zeta.
  destruct (server s (trace s) _) as [lat st txt d|lat].
  - destruct (timed_out (Some 3000) lat) eqn:Hto.
    + cbn [snd advance now trace default]. rewrite requests_app, length_app.
      simpl. lia.
    + assert (Z.of_N lat < 3000).
      { unfold timed_out in Hto. simpl in Hto. apply Z.leb_gt in Hto. lia. }
      destruct (ok_status st); cbn [snd advance now trace lift];
        rewrite requests_app, length_app; simpl; lia.
  - destruct (timed_out (Some 3000) lat) eqn:Hto.
    + cbn [snd advance now trace default]. rewrite requests_app, length_app.
      simpl. lia.
    + assert (Z.of_N lat < 3000).
      { unfold timed_out in Hto. simpl in Hto. apply Z.leb_gt in Hto. lia. }
      cbn [snd advance now trace]. rewrite requests_app, length_app. simpl. lia.
Qed.

(** ** The further theorems at the scripted services *)

Lemma parseLyrics_fixes_clean_text_witness :
  parseLyrics ("la la" +:+ newline +:+ " di dum") = "la la" +:+ newline +:+ " di dum".
Proof.
  apply (parseLyrics_fixes_clean_text ("la la" +:+ newline +:+ " di dum")).
  repeat constructor; unfold not_blank; vm_compute; discriminate.
Defined.

Lemma init_establishes_session_witness :
  ∃ s', init (Demo.fresh (Demo.services "queued")) = (Ok (), s')
        ∧ sid s' = JStr "sess_1"
        ∧ interceptors s' = [SetBearer (JStr "token1")].
Proof.
  eexists. split.
  - apply (init_establishes_session (Demo.fresh (Demo.services "queued"))
             10 200 "OK"
             (Demo.obj [("response",
                         Demo.obj [("last_active_session_id", JStr "sess_1")])])
             20 200 "OK" (Demo.obj [("jwt", JStr "token1")]));
      vm_compute; reflexivity.
  - split; vm_compute; reflexivity.
Defined.

Lemma keepAlive_registers_interceptor_witness :
  ∃ s' pause,
    keepAlive (Some true) (Demo.ready (Demo.services "queued")) = (Ok (), s')
    ∧ interceptors s' = [SetBearer (JStr "token1"); SetBearer (JStr "token2")]
    ∧ 1000 <= pause <= 2000.
Proof.
  destruct (keepAlive_registers_interceptor (Some true)
              (Demo.ready (Demo.services "queued")) 20 200 "OK"
              (Demo.obj [("jwt", JStr "token2")]))
    as (s' & pause & Hrun & Hi & _ & _ & Hp & _);
    try (vm_compute; reflexivity).
  exists s', pause. split; [exact Hrun|]. split; [|exact Hp].
  rewrite Hi. vm_compute. reflexivity.
Defined.

Lemma getAuthToken_stores_or_rejects_witness :
  fst (getAuthToken (Demo.fresh Script.no_session))
  = Throw (Error "Failed to get session id").
Proof.
  rewrite (getAuthToken_stores_or_rejects (Demo.fresh Script.no_session)
             10 200 "OK"
             (Demo.obj [("response",
                         Demo.obj [("last_active_session_id", JNull)])]));
    vm_compute; reflexivity.
Defined.

Lemma generateSongs_rejects_other_status_witness :
  fst (generateSongs 40 "a calm piano piece" false None None (Some false) true
                     (Demo.ready Script.accepted_202))
  = Throw (Error "Error response:Accepted").
Proof.
  rewrite (generateSongs_rejects_other_status 40 "a calm piano piece" false None
             None (Some false) true (Demo.ready Script.accepted_202)
             100 202 "Accepted" (Demo.obj [("clips", JArr [])]));
    [reflexivity | vm_compute; reflexivity | vm_compute; reflexivity | lia].
Defined.

Lemma get_bad_entry_throws_witness :
  fst (get (Some [JStr "a1"; JStr "a2"]) (Demo.ready Script.broken_feed))
  = Throw TypeError.
Proof.
  rewrite (get_bad_entry_throws (Some [JStr "a1"; JStr "a2"])
             (Demo.ready Script.broken_feed) 30 200 "OK"
             [Demo.clip "a1" "complete" (JStr "la");
              Demo.obj [("id", JStr "a2"); ("status", JStr "complete")]]
             (Demo.obj [("id", JStr "a2"); ("status", JStr "complete")]));
    [reflexivity | vm_compute; reflexivity | vm_compute; reflexivity
    | vm_compute; reflexivity | by right; left | ].
  intros [[_ Hmeta] _]. vm_compute in Hmeta. discriminate Hmeta.
Defined.

Lemma get_credits_maps_billing_witness :
  fst (get_credits (Demo.ready Script.billing))
  = Ok {[ "credits_left" := JNum 40; "period" := JUndefined;
          "monthly_limit" := JNum 50; "monthly_usage" := JNum 10 ]}.
Proof.
  rewrite (get_credits_maps_billing (Demo.ready Script.billing) 15 200 "OK"
             (Demo.obj [("total_credits_left", JNum 40);
                        ("monthly_limit", JNum 50);
                        ("monthly_usage", JNum 10)]));
    vm_compute; reflexivity.
Defined.

Lemma generateSongs_wait_returns_last_fetch_witness :
  ∃ l s' evs,
    generateSongs 5 "a calm piano piece" false None None (Some false) true
                  (Demo.ready (Demo.services "streaming")) = (Ok l, s')
    ∧ trace s' = trace (Demo.ready (Demo.services "streaming")) ++ evs
    ∧ last (fetches evs) = Some l.
Proof.
  assert (Hrun : ∃ l s',
             generateSongs 5 "a calm piano piece" false None None (Some false) true
                           (Demo.ready (Demo.services "streaming")) = (Ok l, s'))
    by (eexists _, _; vm_compute; reflexivity).
  destruct Hrun as (l & s' & Hrun).
  destruct (generateSongs_wait_returns_last_fetch 5 "a calm piano piece" false
              None None (Some false) (Demo.ready (Demo.services "streaming"))
              l s' Hrun) as (evs & Htr & Hlast).
  exists l, s', evs. split; [exact Hrun|]. split; [exact Htr | exact Hlast].
Defined.

Lemma generateSongs_polls_submitted_ids_witness :
  ∃ evs,
    gets_sent evs ≠ []
    ∧ Forall (λ r, req_url r = "https://studio-api.suno.ai/api/feed/?ids=a1,a2"
                   ∧ req_timeout r = Some 3000) (gets_sent evs).
Proof.
  destruct (generateSongs_polls_submitted_ids 40 "a calm piano piece" false None
              None (Some false) (Demo.ready (Demo.services "queued")) 100 "OK"
              (Demo.obj [("clips", JArr [Demo.clip "a1" "submitted" JUndefined;
                                         Demo.clip "a2" "queued" JUndefined])])
              (JArr [Demo.clip "a1" "submitted" JUndefined;
                     Demo.clip "a2" "queued" JUndefined])
              [JStr "a1"; JStr "a2"])
    as (evs & _ & Hne & Hall);
    try (vm_compute; reflexivity); [lia|].
  exists evs. split; [exact Hne | exact Hall].
Defined.




(** ** The two public entry points and a failing renewal *)

(** X18: what the two public entry points post, for all arguments:
    [custom_generate] posts exactly the five fields [make_instrumental],
    [mv], [prompt], [tags] and [title], the last three holding the
    caller's strings; [generate] posts exactly the four fields
    [gpt_description_prompt], [make_instrumental], [mv] and an empty
    [prompt].  An instrumental flag left out counts as [false]. *)
Theorem entry_points_post_exact_payloads
    fuel prompt tags title make_instrumental wait_audio s :
  (∃ reply rest,
     trace (snd (custom_generate fuel prompt tags title make_instrumental
                                 wait_audio s))
     = trace s
       ++ Exchange
            (mkRequest POST "https://studio-api.suno.ai/api/generate/v2/"
               (Some {[ "make_instrumental" := JBool (default false make_instrumental);
                        "mv" := JStr "chirp-v3-0";
                        "prompt" := JStr prompt;
                        "tags" := JStr tags;
                        "title" := JStr title ]})
               (outgoing_headers s) (Some 10000))
            reply
          :: rest)
  ∧ (∃ reply rest,
       trace (snd (generate fuel prompt make_instrumental wait_audio s))
       = trace s
         ++ Exchange
              (mkRequest POST "https://studio-api.suno.ai/api/generate/v2/"
                 (Some {[ "gpt_description_prompt" := JStr prompt;
                          "make_instrumental" := JBool (default false make_instrumental);
                          "mv" := JStr "chirp-v3-0";
                          "prompt" := JStr "" ]})
                 (outgoing_headers s) (Some 10000))
              reply
            :: rest).
Proof.
  split.
  - unfold custom_generate.
    destruct (generateSongs_posts_payload fuel prompt true (Some tags) (Some title)
                (Some (default false make_instrumental))
                (default false wait_audio) s) as (reply & rest & Htr).
    exists reply, rest. rewrite Htr. reflexivity.
  - unfold generate.
    destruct (generateSongs_posts_payload fuel prompt false None None
                (Some (default false make_instrumental))
                (default false wait_audio) s) as (reply & rest & Htr).
    exists reply, rest. rewrite Htr. reflexivity.
Qed.

(** X19: a submission that does not wait is lost to the caller when the
    renewal that follows it fails: the submission endpoint has accepted
    it and created the clips, but if the identity service then answers
    the renewal with a status outside 200..299, [generateSongs] throws
    that rejection and returns no clip. *)
Theorem generateSongs_no_wait_renewal_fails
    fuel prompt isCustom tags title make_instrumental s latency txt d clips
    songIds l2 st2 txt2 d2 :
  let req := mkRequest POST "https://studio-api.suno.ai/api/generate/v2/"
               (Some (generateSongs_payload prompt isCustom tags title
                                            make_instrumental))
               (outgoing_headers s) (Some 10000) in
  let renew := mkRequest POST
                 ("https://clerk.suno.ai/v1/client/sessions/"
                  +:+ Js.to_string (sid s)
                  +:+ "/tokens/api?_clerk_js_version=4.70.0")
                 None (outgoing_headers s) None in
  Js.truthy (sid s) = true →
  server s (trace s) req = HttpReply latency 200 txt d →
  timed_out (Some 10000) latency = false →
  Js.prop "clips" d = Ok clips →
  js_map (Js.prop "id") clips = Ok songIds →
  server s (trace s ++ [Exchange req (HttpReply latency 200 txt d)]) renew
    = HttpReply l2 st2 txt2 d2 →
  ok_status st2 = false →
  generateSongs fuel prompt isCustom tags title make_instrumental false s
  = (Throw (AxiosError (EBadStatus st2)),
     advance (Z.of_N l2) (Exchange renew (HttpReply l2 st2 txt2 d2))
       (advance (Z.of_N latency) (Exchange req (HttpReply latency 200 txt d)) s)).
Proof.
  intros req renew Hsid Hrep Hto Hclips Hids Hrep2 Hst2.
  pose proof (client_request_Ok POST _ _ (Some 10000) s _ 200 _ _ Hrep Hto eq_refl)
    as Hpost.
  fold req in Hpost. set (s1 := advance _ _ s) in *.
  unfold generateSongs, client_post.
  change (BASE_URL +:+ "/api/generate/v2/")
    with "https://studio-api.suno.ai/api/generate/v2/".
  rewrite (bind_Ok _ _ _ _ _ Hpost).
  cbn [status data statusText]. change (negb (200 =? 200)) with false. cbv iota.
  rewrite Hclips, bind_lift_Ok, Hids, bind_lift_Ok.
  apply bind_Throw. unfold keepAlive. rewrite bind_gets.
  change (sid s1) with (sid s). rewrite Hsid. cbn [negb].
  apply bind_Throw. unfold client_post, client_request.
  change (CLERK_BASE_URL +:+ "/v1/client/sessions/" +:+ Js.to_string (sid s)
          +:+ "/tokens/api?_clerk_js_version=4.70.0") with (req_url renew).
  change (mkRequest POST (req_url renew) None (outgoing_headers s1) None) with renew.
  change (trace s1) with (trace s ++ [Exchange req (HttpReply latency 200 txt d)]).
  change (server s1) with (server s).
  rewrite Hrep2. cbn [timed_out]. by rewrite Hst2.
Qed.

Lemma generateSongs_no_wait_renewal_fails_witness :
  fst (generateSongs 0 "a calm piano piece" false None None (Some false) false
                     (Demo.ready Script.renews_once))
  = Throw (AxiosError (EBadStatus 503)).
Proof.
  rewrite (generateSongs_no_wait_renewal_fails 0 "a calm piano piece" false None
             None (Some false) (Demo.ready Script.renews_once) 100 "OK"
             (Demo.obj [("clips", JArr [Demo.clip "a1" "submitted" JUndefined;
                                        Demo.clip "a2" "queued" JUndefined])])
             (JArr [Demo.clip "a1" "submitted" JUndefined;
                    Demo.clip "a2" "queued" JUndefined])
             [JStr "a1"; JStr "a2"] 20 503 "Service Unavailable" JNull);
    vm_compute; reflexivity.
Defined.
